(** * HTTP datetime parser: a shallow embedding of [http_datetime_parser.c]

    The definitions follow the C file function by function, in dependency
    order: the lookup tables and calendar helpers, the arithmetic engine
    ([add_years], [add_months], [add_days], [add_hours], [add_minutes],
    [convert]), the parser ([parse_month], [parse_weekday], the [sscanf]
    call and [generate_date]), the formatter ([to_date_string]) and the
    release operation ([free_date]).  The properties come after the
    definitions.

    Modelling conventions.
    - A C [int] is a [Z].  Signed overflow is undefined in C, so the
      model describes the executions in which no [int] operation
      overflows; [/] and [%] are C's truncating [Z.quot] and [Z.rem].
    - The [arcdate_t] struct is a record; a function that mutates the
      struct through its pointer is a function from the old record to the
      new one.  A function that returns a [malloc]ed object or [NULL]
      returns an [option].  The heap itself only matters for release and
      is a finite map from addresses to structs.
    - A [while] loop is a function defined by well-founded recursion on a
      measure that decreases at every iteration, for every state; the
      relation [while_runs] counts its iterations.
    - A read outside a lookup table is undefined in C; the model returns
      [0] (numbers) or the empty string (names) there.
    - A C string is the [string] of its characters before the
      terminating NUL. *)

From stdpp Require Import base gmap.
From Stdlib Require Import ZArith Lia List Bool String Ascii.
From Equations Require Import Equations.
Import ListNotations.

Local Open Scope Z_scope.

(** ** The timestamp record *)

Record arcdate_t : Set := mk_arcdate {
  year : Z;
  month : Z;
  day : Z;
  hour : Z;
  minute : Z;
  second : Z;
  weekday : Z;
  gmt_offset : Z
}.

(** Field assignments [date->f = v]. *)

Definition set_year (d : arcdate_t) (v : Z) : arcdate_t :=
  mk_arcdate v (month d) (day d) (hour d) (minute d) (second d) (weekday d) (gmt_offset d).
Definition set_month (d : arcdate_t) (v : Z) : arcdate_t :=
  mk_arcdate (year d) v (day d) (hour d) (minute d) (second d) (weekday d) (gmt_offset d).
Definition set_day (d : arcdate_t) (v : Z) : arcdate_t :=
  mk_arcdate (year d) (month d) v (hour d) (minute d) (second d) (weekday d) (gmt_offset d).
Definition set_hour (d : arcdate_t) (v : Z) : arcdate_t :=
  mk_arcdate (year d) (month d) (day d) v (minute d) (second d) (weekday d) (gmt_offset d).
Definition set_minute (d : arcdate_t) (v : Z) : arcdate_t :=
  mk_arcdate (year d) (month d) (day d) (hour d) v (second d) (weekday d) (gmt_offset d).
Definition set_weekday (d : arcdate_t) (v : Z) : arcdate_t :=
  mk_arcdate (year d) (month d) (day d) (hour d) (minute d) (second d) v (gmt_offset d).
Definition set_gmt_offset (d : arcdate_t) (v : Z) : arcdate_t :=
  mk_arcdate (year d) (month d) (day d) (hour d) (minute d) (second d) (weekday d) v.

(** ** Lookup tables *)

Definition month_days : list Z := [31; 28; 31; 30; 31; 30; 31; 31; 30; 31; 30; 31].

Definition weekday_names : list string :=
  ["Sun"; "Mon"; "Tue"; "Wed"; "Thu"; "Fri"; "Sat"]%string.

Definition month_names : list string :=
  ["Jan"; "Feb"; "Mar"; "Apr"; "May"; "Jun";
   "Jul"; "Aug"; "Sep"; "Oct"; "Nov"; "Dec"]%string.

(** [table[i]] for an [int] index. *)
Definition table_get {A : Type} (dflt : A) (table : list A) (i : Z) : A :=
  if i <? 0 then dflt else nth (Z.to_nat i) table dflt.

(** ** Calendar helpers *)

Definition is_leap_year (year : Z) : bool :=
  if negb (Z.rem year 4 =? 0) then false
  else if negb (Z.rem year 100 =? 0) then true
  else if negb (Z.rem year 400 =? 0) then false
  else true.

Definition days_in_month (month year : Z) : Z :=
  if month =? 2 then (if is_leap_year year then 29 else 28)
  else table_get 0 month_days (month - 1).

(** ** Arithmetic engine *)

Definition add_years (date : arcdate_t) (years : Z) : arcdate_t :=
  let date := set_year date (year date + years) in
  if (month date =? 2) && (day date =? 29) && negb (is_leap_year (year date))
  then set_day date 28
  else date.

(** The local [years_change] of [add_months], as a function of
    [total_months]. *)
Definition years_change (total_months : Z) : Z :=
  let years_change := Z.quot total_months 12 in
  if total_months <? 0 then years_change - 1 else years_change.

Definition add_months (date : arcdate_t) (months : Z) : arcdate_t :=
  let total_months := month date + months - 1 in
  let date := set_month date (Z.rem (Z.rem total_months 12 + 12) 12 + 1) in
  let date := add_years date (years_change total_months) in
  let dim := days_in_month (month date) (year date) in
  if day date >? dim then set_day date dim else date.

(** First loop of [add_days]: [while (date->day > days_in_month(...))]. *)

Definition carry_cond (date : arcdate_t) : bool :=
  day date >? days_in_month (month date) (year date).

Definition carry_body (date : arcdate_t) : arcdate_t :=
  let date := set_day date (day date - days_in_month (month date) (year date)) in
  let date := set_month date (month date + 1) in
  let date :=
    if month date >? 12 then set_year (set_month date 1) (year date + 1) else date in
  set_weekday date (Z.rem (weekday date + 1) 7).

(** An iteration takes a month length off [day], or, on a month outside
    the table (length [0]), moves [month] towards the table. *)
Definition carry_measure (date : arcdate_t) : nat :=
  (Z.to_nat (day date) + (if month date >? 12 then 1 else Z.to_nat (1 - month date)))%nat.

(** Second loop of [add_days]: [while (date->day < 1)]. *)

Definition borrow_cond (date : arcdate_t) : bool := day date <? 1.

Definition borrow_body (date : arcdate_t) : arcdate_t :=
  let date := set_month date (month date - 1) in
  let date :=
    if month date <? 1 then set_year (set_month date 12) (year date - 1) else date in
  let date := set_day date (day date + days_in_month (month date) (year date)) in
  set_weekday date (Z.rem (weekday date + 6) 7).

(** An iteration adds a month length to [day], or, on a month beyond 13,
    moves [month] down towards the table. *)
Definition borrow_measure (date : arcdate_t) : nat :=
  (Z.to_nat (1 - day date) + Z.to_nat (month date - 13))%nat.

(** Case analysis on a loop condition that keeps the equation. *)
Definition inspect {A : Type} (x : A) : {y : A | x = y} := exist _ x eq_refl.

(** [fields] computes field reads of explicit records and assignments. *)
Ltac fields :=
  cbn [year month day hour minute second weekday gmt_offset
       set_year set_month set_day set_hour set_minute set_weekday set_gmt_offset] in *.

(** [dim_cases m y H] records what [days_in_month m y] can be: a month
    length between 28 and 31 when [m] indexes the table, [0] otherwise. *)
Ltac dim_cases m y H :=
  assert (H : (1 <= m <= 12 /\ 28 <= days_in_month m y <= 31)
              \/ ((m < 1 \/ 12 < m) /\ days_in_month m y = 0));
  [ unfold days_in_month, table_get;
    destruct (Z.eqb_spec m 2);
    [ left; destruct (is_leap_year y); lia
    | destruct (Z.ltb_spec (m - 1) 0);
      [ right; lia
      | destruct (Z.ltb_spec 12 m);
        [ right; split; [lia | apply nth_overflow;
                             change (Datatypes.length month_days) with 12%nat; lia]
        | left; split; [lia |];
          let Hc := fresh "Hc" in
          assert (Hc : m = 1 \/ m = 3 \/ m = 4 \/ m = 5 \/ m = 6 \/ m = 7 \/ m = 8
                       \/ m = 9 \/ m = 10 \/ m = 11 \/ m = 12) by lia;
          destruct Hc as [Hc | [Hc | [Hc | [Hc | [Hc | [Hc | [Hc | [Hc | [Hc | [Hc | Hc]]]]]]]]]];
          first [ discriminate Hc | try rewrite Hc; vm_compute; split; discriminate ] ] ] ]
  | ].

(** [split_cmp] splits on the integer comparisons of the goal. *)
Ltac split_cmp :=
  repeat match goal with
         | |- context [?a >? ?b] => destruct (Z.gtb_spec a b); fields
         | |- context [?a <? ?b] => destruct (Z.ltb_spec a b); fields
         | |- context [?a =? ?b] => destruct (Z.eqb_spec a b); fields
         end.

Equations? carry_loop (date : arcdate_t) : arcdate_t by wf (carry_measure date) lt :=
  carry_loop date with inspect (carry_cond date) := {
    | exist _ true _ => carry_loop (carry_body date)
    | exist _ false _ => date }.
Proof.
  destruct date as [y m d h mi s w g].
  unfold carry_cond, carry_body, carry_measure in *; fields.
  assert (Hd : days_in_month m y < d) by (apply Z.gtb_lt; assumption).
  dim_cases m y Hdim.
  destruct Hdim as [[Hm Hr] | [Hm Hr]]; split_cmp; lia.
Qed.

Equations? borrow_loop (date : arcdate_t) : arcdate_t by wf (borrow_measure date) lt :=
  borrow_loop date with inspect (borrow_cond date) := {
    | exist _ true _ => borrow_loop (borrow_body date)
    | exist _ false _ => date }.
Proof.
  destruct date as [y m d h mi s w g].
  unfold borrow_cond, borrow_body, borrow_measure in *; fields.
  assert (Hd : d < 1) by (apply Z.ltb_lt; assumption).
  destruct (Z.ltb_spec (m - 1) 1); fields.
  - dim_cases 12 (y - 1) Hdim. lia.
  - dim_cases (m - 1) y Hdim. lia.
Qed.

Definition add_days (date : arcdate_t) (days : Z) : arcdate_t :=
  let date := set_day date (day date + days) in
  let date := carry_loop date in
  borrow_loop date.

(** The local [days_change] of [add_hours], as a function of
    [total_hours]. *)
Definition days_change (total_hours : Z) : Z :=
  let days_change := Z.quot total_hours 24 in
  if total_hours <? 0 then days_change - 1 else days_change.

Definition add_hours (date : arcdate_t) (hours : Z) : arcdate_t :=
  let total_hours := hour date + hours in
  let date := set_hour date (Z.rem (Z.rem total_hours 24 + 24) 24) in
  add_days date (days_change total_hours).

(** The local [hours_change] of [add_minutes], as a function of
    [total_minutes]. *)
Definition hours_change (total_minutes : Z) : Z :=
  let hours_change := Z.quot total_minutes 60 in
  if total_minutes <? 0 then hours_change - 1 else hours_change.

Definition add_minutes (date : arcdate_t) (minutes : Z) : arcdate_t :=
  let total_minutes := minute date + minutes in
  let date := set_minute date (Z.rem (Z.rem total_minutes 60 + 60) 60) in
  add_hours date (hours_change total_minutes).

Definition convert (date : arcdate_t) (new_gmt_offset : Z) : arcdate_t :=
  let diff := new_gmt_offset - gmt_offset date in
  let date := add_hours date diff in
  set_gmt_offset date new_gmt_offset.

(** ** Parser *)

Local Open Scope string_scope.
Local Open Scope Z_scope.

(** [strcmp(str, names[i]) == 0] over a name table: the index of the
    first entry equal to [str], counting from [i]. *)
Fixpoint find_name (str : string) (names : list string) (i : Z) : option Z :=
  match names with
  | [] => None
  | name :: names' =>
      if String.eqb str name then Some i else find_name str names' (i + 1)
  end.

Definition parse_month (str : string) : Z :=
  match find_name str month_names 0 with
  | Some i => i + 1
  | None => 1
  end.

Definition parse_weekday (str : string) : Z :=
  match find_name str weekday_names 0 with
  | Some i => i
  | None => 0
  end.

(** *** The [sscanf] directives used by [generate_date] *)

(** [isspace] and [isdigit] of the C locale. *)
Definition isspace (c : ascii) : bool :=
  let n := nat_of_ascii c in
  Nat.eqb n 32 || (Nat.leb 9 n && Nat.leb n 13).

Definition isdigit (c : ascii) : bool :=
  let n := nat_of_ascii c in
  Nat.leb 48 n && Nat.leb n 57.

Definition digit_val (c : ascii) : Z := Z.of_nat (nat_of_ascii c) - 48.

(** A white-space directive, and the white space skipped before [%s] and [%d]. *)
Fixpoint skip_ws (s : string) : string :=
  match s with
  | String c r => if isspace c then skip_ws r else s
  | EmptyString => s
  end.

(** At most [width] characters up to the next white space. *)
Fixpoint take_nonspace (width : nat) (s : string) : string * string :=
  match width, s with
  | S w, String c r =>
      if isspace c then (EmptyString, s)
      else let '(tok, rest) := take_nonspace w r in (String c tok, rest)
  | _, _ => (EmptyString, s)
  end.

(** [%3s] is [scan_s 3]: fails at the end of the input. *)
Definition scan_s (width : nat) (s : string) : option (string * string) :=
  match take_nonspace width (skip_ws s) with
  | (EmptyString, _) => None
  | (tok, rest) => Some (tok, rest)
  end.

(** An ordinary character of the format must be the next input character. *)
Definition scan_lit (c : ascii) (s : string) : option string :=
  match s with
  | String c' r => if Ascii.eqb c' c then Some r else None
  | EmptyString => None
  end.

Fixpoint scan_digits (acc : Z) (s : string) : Z * string :=
  match s with
  | String c r => if isdigit c then scan_digits (acc * 10 + digit_val c) r else (acc, s)
  | EmptyString => (acc, s)
  end.

(** [%d]: optional sign, then at least one decimal digit. *)
Definition scan_d (s : string) : option (Z * string) :=
  match skip_ws s with
  | String c r =>
      let '(negative, s) :=
        if Ascii.eqb c "-" then (true, r)
        else if Ascii.eqb c "+" then (false, r)
        else (false, String c r) in
      match s with
      | String c' _ =>
          if isdigit c'
          then let '(v, rest) := scan_digits 0 s in Some (if negative then - v else v, rest)
          else None
      | EmptyString => None
      end
  | EmptyString => None
  end.

(** The locals of [generate_date] that [sscanf] writes to.  They are not
    initialised in the C code: a conversion that is not reached leaves
    the indeterminate initial value in place. *)
Record scan_locals : Set := mk_locals {
  l_weekday : string;
  l_day : Z;
  l_month : string;
  l_year : Z;
  l_hour : Z;
  l_minute : Z;
  l_second : Z
}.

(** [sscanf(httpDate, "%3s, %d %3s %d %d:%d:%d", weekday, &day, month,
    &year, &hour, &minute, &second)]: the directives run in order and the
    scan stops at the first one that fails. *)
Definition sscanf_http_date (httpDate : string) (v : scan_locals) : scan_locals :=
  match scan_s 3 httpDate with
  | None => v
  | Some (wd, s) =>
  let v := mk_locals wd (l_day v) (l_month v) (l_year v) (l_hour v) (l_minute v) (l_second v) in
  match scan_lit "," s with
  | None => v
  | Some s =>
  match scan_d (skip_ws s) with
  | None => v
  | Some (dd, s) =>
  let v := mk_locals (l_weekday v) dd (l_month v) (l_year v) (l_hour v) (l_minute v) (l_second v) in
  match scan_s 3 (skip_ws s) with
  | None => v
  | Some (mo, s) =>
  let v := mk_locals (l_weekday v) (l_day v) mo (l_year v) (l_hour v) (l_minute v) (l_second v) in
  match scan_d (skip_ws s) with
  | None => v
  | Some (yy, s) =>
  let v := mk_locals (l_weekday v) (l_day v) (l_month v) yy (l_hour v) (l_minute v) (l_second v) in
  match scan_d (skip_ws s) with
  | None => v
  | Some (hh, s) =>
  let v := mk_locals (l_weekday v) (l_day v) (l_month v) (l_year v) hh (l_minute v) (l_second v) in
  match scan_lit ":" s with
  | None => v
  | Some s =>
  match scan_d s with
  | None => v
  | Some (mi, s) =>
  let v := mk_locals (l_weekday v) (l_day v) (l_month v) (l_year v) (l_hour v) mi (l_second v) in
  match scan_lit ":" s with
  | None => v
  | Some s =>
  match scan_d s with
  | None => v
  | Some (ss, _) =>
      mk_locals (l_weekday v) (l_day v) (l_month v) (l_year v) (l_hour v) (l_minute v) ss
  end end end end end end end end end end.

(** The broken-down UTC time returned by [gmtime]. *)
Record struct_tm : Set := mk_tm {
  tm_sec : Z;
  tm_min : Z;
  tm_hour : Z;
  tm_mday : Z;
  tm_mon : Z;
  tm_year : Z;
  tm_wday : Z
}.

(** What the library takes from its environment: whether [malloc]
    succeeds, the clock read by [generate_date], and the indeterminate
    contents of the locals of [generate_date]. *)
Record environment : Set := mk_env {
  malloc_ok : bool;
  gmtime_now : struct_tm;
  indeterminate : scan_locals
}.

(** The fields of the new struct just before the call [add_hours(date,
    gmt_offset)] at the end of [generate_date]. *)
Definition fill_date (env : environment) (httpDate : option string) (gmt_offset : Z)
  : arcdate_t :=
  match httpDate with
  | None =>
      let tm_utc := gmtime_now env in
      mk_arcdate (tm_year tm_utc + 1900) (tm_mon tm_utc + 1) (tm_mday tm_utc)
                 (tm_hour tm_utc) (tm_min tm_utc) (tm_sec tm_utc) (tm_wday tm_utc)
                 gmt_offset
  | Some httpDate =>
      let v := sscanf_http_date httpDate (indeterminate env) in
      mk_arcdate (l_year v) (parse_month (l_month v)) (l_day v)
                 (l_hour v) (l_minute v) (l_second v) (parse_weekday (l_weekday v))
                 gmt_offset
  end.

(** [generate_date] returns [None] for the [NULL] pointer and otherwise
    the contents of the freshly allocated struct. *)
Definition generate_date (env : environment) (httpDate : option string) (gmt_offset : Z)
  : option arcdate_t :=
  if negb (malloc_ok env) then None
  else Some (add_hours (fill_date env httpDate gmt_offset) gmt_offset).

(** ** Formatter *)

Definition digit_char (d : Z) : ascii := ascii_of_nat (48 + Z.to_nat d).

Fixpoint dec_digits (fuel : nat) (n : Z) (acc : string) : string :=
  match fuel with
  | O => acc
  | S fuel' =>
      let acc := String (digit_char (n mod 10)) acc in
      if n <? 10 then acc else dec_digits fuel' (n / 10) acc
  end.

(** The decimal digits of a non-negative number. *)
Definition print_unsigned (n : Z) : string :=
  dec_digits (S (Z.to_nat (Z.log2 n))) n EmptyString.

Fixpoint zeros (n : nat) : string :=
  match n with
  | O => EmptyString
  | S n' => String "0" (zeros n')
  end.

(** The [printf] conversions [%0<width>d] ([plus = false]) and [%+d]
    ([plus = true], [width = 0]). *)
Definition fmt_d (plus : bool) (width : nat) (v : Z) : string :=
  let digits := print_unsigned (Z.abs v) in
  let sign := if v <? 0 then "-" else if plus then "+" else EmptyString in
  sign ++ zeros (width - String.length sign - String.length digits) ++ digits.

(** [snprintf] into the 100-byte buffer keeps at most 99 characters. *)
Definition snprintf (size : nat) (text : string) : string :=
  String.substring 0 (size - 1) text.

(** [to_date_string] returns [None] for the [NULL] pointer and otherwise
    the text left in the buffer. *)
Definition to_date_string (env : environment) (date : arcdate_t) : option string :=
  if negb (malloc_ok env) then None
  else
    Some (snprintf 100
      (table_get EmptyString weekday_names (weekday date) ++ ", "
       ++ fmt_d false 2 (day date) ++ " "
       ++ table_get EmptyString month_names (month date - 1) ++ " "
       ++ fmt_d false 4 (year date) ++ " "
       ++ fmt_d false 2 (hour date) ++ ":"
       ++ fmt_d false 2 (minute date) ++ ":"
       ++ fmt_d false 2 (second date) ++ " GMT"
       ++ fmt_d true 0 (gmt_offset date))).

(** ** Allocation and release *)

(** The heap maps the address of every live [arcdate_t] block to its
    contents; a pointer is an address or [NULL]. *)
Abbreviation heap := (gmap positive arcdate_t).
Abbreviation pointer := (option positive).
Abbreviation NULL := (@None positive).

(** [free(p)] for a live block. *)
Definition free (h : heap) (p : positive) : heap := delete p h.

Definition free_date (h : heap) (date : pointer) : heap :=
  match date with
  | Some p => free h p
  | None => h
  end.

(** [generate_date] seen from the heap: the struct is stored at a fresh
    address, or [NULL] is returned and the heap is left as it was. *)
Definition generate_date_at (env : environment) (h : heap) (httpDate : option string)
    (gmt_offset : Z) : heap * pointer :=
  match generate_date env httpDate gmt_offset with
  | Some date => let p := fresh (dom h) in (<[p := date]> h, Some p)
  | None => (h, NULL)
  end.

(** ** Specification vocabulary *)

(** The field-range invariants of a timestamp. *)
Definition invariants (d : arcdate_t) : Prop :=
  1 <= month d <= 12 /\
  1 <= day d <= days_in_month (month d) (year d) /\
  0 <= hour d <= 23 /\
  0 <= minute d <= 59 /\
  0 <= weekday d <= 6.

(** The invariants that do not mention [day]; [add_days] re-establishes
    the bound on [day] from these alone. *)
Definition ranges_except_day (d : arcdate_t) : Prop :=
  1 <= month d <= 12 /\ 0 <= hour d <= 23 /\ 0 <= minute d <= 59 /\ 0 <= weekday d <= 6.

(** Gregorian weekday reckoning: the number of days from the (proleptic)
    1 January of year 1 up to and including the given date; that day was a
    Monday, so the count modulo 7 is the weekday with 0 = Sunday. *)
Definition days_before_year (y : Z) : Z :=
  365 * (y - 1) + (y - 1) / 4 - (y - 1) / 100 + (y - 1) / 400.

Definition days_before_month (m y : Z) : Z :=
  fold_right Z.add 0
    (map (fun k => days_in_month (Z.of_nat k) y) (seq 1 (Z.to_nat (m - 1)))).

Definition day_number (y m d : Z) : Z :=
  days_before_year y + days_before_month m y + d.

Definition date_number (d : arcdate_t) : Z := day_number (year d) (month d) (day d).

Definition weekday_of (y m d : Z) : Z := day_number y m d mod 7.

Definition weekday_consistent (d : arcdate_t) : Prop :=
  weekday d = weekday_of (year d) (month d) (day d).

(** The combined values at which the carries of the code leave the floor
    quotient: the negative exact multiples of the base. *)
Definition negative_multiple (base total : Z) : Prop := total < 0 /\ total mod base = 0.

(** The number of the month a timestamp lies in, counted from year 0. *)
Definition month_index (d : arcdate_t) : Z := 12 * year d + (month d - 1).

(** A [while (cond) body] loop that leaves the state [s] in the state
    [s'] after exactly [k] iterations. *)
Inductive while_runs {S : Type} (cond : S -> bool) (body : S -> S)
  : nat -> S -> S -> Prop :=
| while_exit : forall s, cond s = false -> while_runs cond body O s s
| while_iter : forall k s s',
    cond s = true -> while_runs cond body k (body s) s' ->
    while_runs cond body (Datatypes.S k) s s'.

(** The text layout of a well-formed HTTP date,
    ["<Wkd>, <DD> <Mon> <YYYY> <HH>:<MM>:<SS> GMT"]. *)
Definition two_digits (n : Z) : string :=
  String (digit_char (n / 10)) (String (digit_char (n mod 10)) EmptyString).

Definition four_digits (n : Z) : string :=
  String (digit_char (n / 1000))
    (String (digit_char (n / 100 mod 10))
       (String (digit_char (n / 10 mod 10))
          (String (digit_char (n mod 10)) EmptyString))).

Definition http_date_text (wd dd mon yyyy hh mm ss : Z) : string :=
  table_get EmptyString weekday_names wd ++ ", "
  ++ two_digits dd ++ " "
  ++ table_get EmptyString month_names (mon - 1) ++ " "
  ++ four_digits yyyy ++ " "
  ++ two_digits hh ++ ":" ++ two_digits mm ++ ":" ++ two_digits ss ++ " GMT".

Definition well_formed_http_date (s : string) : Prop :=
  exists wd dd mon yyyy hh mm ss,
    0 <= wd <= 6 /\ 1 <= mon <= 12 /\ 0 <= yyyy <= 9999 /\
    1 <= dd <= days_in_month mon yyyy /\
    0 <= hh <= 23 /\ 0 <= mm <= 59 /\ 0 <= ss <= 59 /\
    s = http_date_text wd dd mon yyyy hh mm ss.

(** [format(parse(s, offset))]: the text of the timestamp parsed from [s]. *)
Definition format_of_parse (env : environment) (s : string) (gmt_offset : Z)
  : option string :=
  match generate_date env (Some s) gmt_offset with
  | Some date => to_date_string env date
  | None => None
  end.

(** Sample timestamps and inputs used by the examples below. *)
Definition wed_21_oct_2015 : arcdate_t := mk_arcdate 2015 10 21 7 28 0 3 0.
Definition noon_21_oct_2015 : arcdate_t := mk_arcdate 2015 10 21 12 0 0 3 0.
Definition midnight_gmt_plus_12 : arcdate_t := mk_arcdate 2015 10 21 0 0 0 3 12.
Definition sample_env : environment :=
  mk_env true (mk_tm 11 16 18 27 3 125 0) (mk_locals EmptyString 0 EmptyString 0 0 0 0).
Definition sample_text : string := "Wed, 21 Oct 2015 07:28:00 GMT".


(** ** Further vocabulary *)

(** The hours and the minutes counted from the start of the day count. *)
Definition hour_number (d : arcdate_t) : Z := 24 * date_number d + hour d.

Definition minute_number (d : arcdate_t) : Z := 60 * hour_number d + minute d.

(** What a carry of the code takes off on top of the floor quotient: one
    [unit] when the combined value is a negative exact multiple of [base]. *)
Definition carry_slip (base unit total : Z) : Z :=
  if (total <? 0) && (total mod base =? 0) then unit else 0.


(** The text that [to_date_string] hands to [snprintf]. *)
Definition date_text (date : arcdate_t) : string :=
  table_get EmptyString weekday_names (weekday date) ++ ", "
  ++ fmt_d false 2 (day date) ++ " "
  ++ table_get EmptyString month_names (month date - 1) ++ " "
  ++ fmt_d false 4 (year date) ++ " "
  ++ fmt_d false 2 (hour date) ++ ":"
  ++ fmt_d false 2 (minute date) ++ ":"
  ++ fmt_d false 2 (second date) ++ " GMT"
  ++ fmt_d true 0 (gmt_offset date).

(** The timestamp that [generate_date] fills in from the clock. *)
Definition clock_date (tm_utc : struct_tm) (gmt_offset : Z) : arcdate_t :=
  mk_arcdate (tm_year tm_utc + 1900) (tm_mon tm_utc + 1) (tm_mday tm_utc)
             (tm_hour tm_utc) (tm_min tm_utc) (tm_sec tm_utc) (tm_wday tm_utc)
             gmt_offset.

(** [main] of test.c: the lines it prints, or [None] when an allocation
    fails and [main] goes on with the [NULL] pointer. *)
Definition main (env : environment) : option (list string) :=
  let http_date := "Wed, 21 Oct 2015 07:28:00 GMT" in
  match generate_date env (Some http_date) 3 with
  | None => None
  | Some date =>
  match to_date_string env date with
  | None => None
  | Some str1 =>
  let date := convert date 5 in
  match to_date_string env date with
  | None => None
  | Some str2 =>
  let date := add_days date 2 in
  match to_date_string env date with
  | None => None
  | Some str3 =>
  let date := add_minutes date (-90) in
  match to_date_string env date with
  | None => None
  | Some str4 =>
  match generate_date env None 0 with
  | None => None
  | Some now =>
  match to_date_string env now with
  | None => None
  | Some str5 =>
      Some ["Testing HTTP Datetime Parser Library...";
            "Parsed and shifted date: " ++ str1;
            "Converted to GMT+5: " ++ str2;
            "After adding 2 days: " ++ str3;
            "After subtracting 90 minutes: " ++ str4;
            "Current UTC time: " ++ str5;
            "All tests completed."]
  end end end end end end end.

(** * Properties *)

(** ** Month lengths *)

Lemma days_in_month_range m y : 1 <= m <= 12 -> 28 <= days_in_month m y <= 31.
Proof. intros Hm. dim_cases m y H. lia. Qed.

Lemma days_in_month_not_feb m y y' : m <> 2 -> days_in_month m y = days_in_month m y'.
Proof.
  intros Hm. unfold days_in_month.
  destruct (Z.eqb_spec m 2); [contradiction | reflexivity].
Qed.

Lemma days_in_month_feb y : days_in_month 2 y = if is_leap_year y then 29 else 28.
Proof. reflexivity. Qed.

(** ** The two loops of [add_days] *)

Lemma carry_loop_step d :
  carry_loop d = if carry_cond d then carry_loop (carry_body d) else d.
Proof. funelim (carry_loop d); rewrite e; reflexivity. Qed.

Lemma borrow_loop_step d :
  borrow_loop d = if borrow_cond d then borrow_loop (borrow_body d) else d.
Proof. funelim (borrow_loop d); rewrite e; reflexivity. Qed.

(** Each loop function is the final state of a run of the loop. *)
Lemma carry_loop_runs d :
  exists k, while_runs carry_cond carry_body k d (carry_loop d).
Proof.
  funelim (carry_loop d).
  - destruct H as [k Hk]. exists (S k). now apply while_iter.
  - exists O. now apply while_exit.
Qed.

Lemma borrow_loop_runs d :
  exists k, while_runs borrow_cond borrow_body k d (borrow_loop d).
Proof.
  funelim (borrow_loop d).
  - destruct H as [k Hk]. exists (S k). now apply while_iter.
  - exists O. now apply while_exit.
Qed.

Section While.
Context {S : Type} (cond : S -> bool) (body : S -> S).

(** A run is determined by its initial state. *)
Lemma while_runs_deterministic k1 k2 s s1 s2 :
  while_runs cond body k1 s s1 -> while_runs cond body k2 s s2 ->
  k1 = k2 /\ s1 = s2.
Proof.
  intros H1. revert k2 s2.
  induction H1 as [s Hc | k s s' Hc Hrun IH]; intros k2 s2 H2.
  - inversion H2; subst; [split; reflexivity | congruence].
  - inversion H2; subst; [congruence |].
    match goal with
    | H : while_runs _ _ _ (body _) _ |- _ => destruct (IH _ _ H) as [-> ->]
    end.
    split; reflexivity.
Qed.

(** The invariant rule: the loop exits with the condition false and
    every invariant of the body still true. *)
Lemma while_runs_invariant (I : S -> Prop) k s s' :
  (forall x, I x -> cond x = true -> I (body x)) ->
  while_runs cond body k s s' -> I s -> I s' /\ cond s' = false.
Proof.
  intros Hbody Hrun. induction Hrun as [s Hc | k s s' Hc Hrun IH]; intros Hs.
  - split; assumption.
  - apply IH. apply Hbody; assumption.
Qed.

Lemma while_runs_O s s' : while_runs cond body O s s' -> s' = s /\ cond s = false.
Proof. intros Hrun. inversion Hrun; subst. split; [reflexivity | assumption]. Qed.
End While.

Lemma carry_loop_invariant (I : arcdate_t -> Prop) d :
  (forall x, I x -> carry_cond x = true -> I (carry_body x)) ->
  I d -> I (carry_loop d) /\ carry_cond (carry_loop d) = false.
Proof.
  intros Hbody Hd. destruct (carry_loop_runs d) as [k Hk].
  exact (while_runs_invariant _ _ I k d _ Hbody Hk Hd).
Qed.

Lemma borrow_loop_invariant (I : arcdate_t -> Prop) d :
  (forall x, I x -> borrow_cond x = true -> I (borrow_body x)) ->
  I d -> I (borrow_loop d) /\ borrow_cond (borrow_loop d) = false.
Proof.
  intros Hbody Hd. destruct (borrow_loop_runs d) as [k Hk].
  exact (while_runs_invariant _ _ I k d _ Hbody Hk Hd).
Qed.

Lemma carry_loop_exit d : carry_cond d = false -> carry_loop d = d.
Proof. intros H. rewrite carry_loop_step, H. reflexivity. Qed.

Lemma borrow_loop_exit d : borrow_cond d = false -> borrow_loop d = d.
Proof. intros H. rewrite borrow_loop_step, H. reflexivity. Qed.

(** ** Range invariants *)

Lemma invariants_ranges d : invariants d -> ranges_except_day d.
Proof. unfold invariants, ranges_except_day. tauto. Qed.

Lemma carry_body_ranges x : ranges_except_day x -> ranges_except_day (carry_body x).
Proof.
  destruct x as [y m d h mi s w g].
  unfold ranges_except_day, carry_body; fields. intros (Hm & Hh & Hmi & Hw).
  split_cmp; repeat split; try lia; Z.to_euclidean_division_equations; lia.
Qed.

Lemma borrow_body_ranges x : ranges_except_day x -> ranges_except_day (borrow_body x).
Proof.
  destruct x as [y m d h mi s w g].
  unfold ranges_except_day, borrow_body; fields. intros (Hm & Hh & Hmi & Hw).
  split_cmp; repeat split; try lia; Z.to_euclidean_division_equations; lia.
Qed.

Lemma borrow_body_day x :
  ranges_except_day x -> borrow_cond x = true ->
  day (borrow_body x) <= days_in_month (month (borrow_body x)) (year (borrow_body x)).
Proof.
  destruct x as [y m d h mi s w g].
  unfold ranges_except_day, borrow_cond, borrow_body; fields.
  intros (Hm & _) Hd. apply Z.ltb_lt in Hd.
  split_cmp; lia.
Qed.

Lemma add_days_invariants d n : ranges_except_day d -> invariants (add_days d n).
Proof.
  intros Hd. unfold add_days.
  assert (H0 : ranges_except_day (set_day d (day d + n))) by exact Hd.
  destruct (carry_loop_invariant ranges_except_day _ (fun x Hx _ => carry_body_ranges x Hx) H0)
    as [H1 Hexit1].
  set (d1 := carry_loop (set_day d (day d + n))) in *.
  assert (H2 : ranges_except_day d1 /\ day d1 <= days_in_month (month d1) (year d1)).
  { split; [assumption |]. unfold carry_cond in Hexit1.
    destruct (Z.gtb_spec (day d1) (days_in_month (month d1) (year d1))); [discriminate | lia]. }
  destruct (borrow_loop_invariant
              (fun x => ranges_except_day x /\ day x <= days_in_month (month x) (year x)) d1)
    as [[H3 Hday] Hexit2]; [ | assumption | ].
  - intros x [Hx _] Hc. split; [apply borrow_body_ranges | apply borrow_body_day]; assumption.
  - unfold borrow_cond in Hexit2. apply Z.ltb_ge in Hexit2.
    destruct H3 as (Hm & Hh & Hmi & Hw). unfold invariants. repeat split; lia.
Qed.

Lemma add_hours_invariants d n : ranges_except_day d -> invariants (add_hours d n).
Proof.
  intros (Hm & Hh & Hmi & Hw). unfold add_hours. apply add_days_invariants.
  unfold ranges_except_day; fields. repeat split; try lia;
    Z.to_euclidean_division_equations; lia.
Qed.

Lemma add_minutes_invariants d n : ranges_except_day d -> invariants (add_minutes d n).
Proof.
  intros (Hm & Hh & Hmi & Hw). unfold add_minutes. apply add_hours_invariants.
  unfold ranges_except_day; fields. repeat split; try lia;
    Z.to_euclidean_division_equations; lia.
Qed.

Lemma convert_invariants d n : ranges_except_day d -> invariants (convert d n).
Proof.
  intros Hd. unfold convert.
  pose proof (add_hours_invariants d (n - gmt_offset d) Hd) as H.
  destruct (add_hours d (n - gmt_offset d)). exact H.
Qed.

(** [add_years] keeps every field but [year] and [day], and clamps
    29 February to 28 February in a common year. *)
Lemma add_years_fields d n :
  let d' := add_years d n in
  year d' = year d + n /\ month d' = month d /\ hour d' = hour d /\
  minute d' = minute d /\ second d' = second d /\ weekday d' = weekday d /\
  gmt_offset d' = gmt_offset d /\
  day d' = if (month d =? 2) && (day d =? 29) && negb (is_leap_year (year d + n))
           then 28 else day d.
Proof.
  destruct d as [y m dd h mi s w g]. unfold add_years; fields.
  destruct ((m =? 2) && (dd =? 29) && negb (is_leap_year (y + n))); fields; tauto.
Qed.

Lemma add_years_invariants d n : invariants d -> invariants (add_years d n).
Proof.
  intros (Hm & Hd & Hh & Hmi & Hw).
  destruct (add_years_fields d n) as (Ey & Em & Eh & Emi & _ & Ew & _ & Ed).
  unfold invariants. rewrite Ey, Em, Eh, Emi, Ew, Ed.
  repeat split; try lia.
  - destruct ((month d =? 2) && (day d =? 29) && negb (is_leap_year (year d + n))); lia.
  - destruct (Z.eqb_spec (month d) 2) as [E2 | N2]; cbn [andb].
    + rewrite E2 in *. rewrite days_in_month_feb in *.
      destruct (Z.eqb_spec (day d) 29) as [E29 | N29]; cbn [andb];
        destruct (is_leap_year (year d + n)), (is_leap_year (year d)); cbn [negb]; lia.
    + rewrite (days_in_month_not_feb _ (year d + n) (year d)) by assumption. lia.
Qed.

Lemma add_months_fields d n :
  let d' := add_months d n in
  month d' = (month d - 1 + n) mod 12 + 1 /\
  year d' = year d + years_change (month d + n - 1) /\
  hour d' = hour d /\ minute d' = minute d /\ second d' = second d /\
  weekday d' = weekday d /\ gmt_offset d' = gmt_offset d.
Proof.
  cbv zeta. unfold add_months.
  set (t := month d + n - 1).
  destruct (add_years_fields (set_month d (Z.rem (Z.rem t 12 + 12) 12 + 1)) (years_change t))
    as (Ey & Em & Eh & Emi & Es & Ew & Eg & _).
  set (d1 := add_years _ _) in *. fields.
  assert (Hmod : Z.rem (Z.rem t 12 + 12) 12 + 1 = (month d - 1 + n) mod 12 + 1)
    by (unfold t; Z.to_euclidean_division_equations; lia).
  destruct (day d1 >? days_in_month (month d1) (year d1)); fields;
    rewrite ?Ey, ?Em, ?Eh, ?Emi, ?Es, ?Ew, ?Eg; repeat split; auto.
Qed.

(** The day after [add_months] is the old day clamped to the length of
    the new month. *)
Lemma add_months_day d n :
  let d' := add_months d n in
  day d' = Z.min (day d) (days_in_month (month d') (year d')).
Proof.
  cbv zeta. unfold add_months.
  set (t := month d + n - 1).
  set (m' := Z.rem (Z.rem t 12 + 12) 12 + 1).
  assert (Hm' : 1 <= m' <= 12) by (unfold m'; Z.to_euclidean_division_equations; lia).
  destruct (add_years_fields (set_month d m') (years_change t))
    as (Ey & Em & _ & _ & _ & _ & _ & Ed).
  set (d1 := add_years _ _) in *. fields.
  pose proof (days_in_month_range (month d1) (year d1)) as Hr. rewrite Em in Hr.
  specialize (Hr Hm').
  assert (Hd1 : day d1 = Z.min (day d) (days_in_month (month d1) (year d1)) \/
                (day d1 = day d /\ day d > days_in_month (month d1) (year d1))).
  { rewrite Ed, Em, Ey. fields.
    destruct (Z.eqb_spec m' 2) as [E2 | N2]; cbn [andb].
    - rewrite E2, days_in_month_feb.
      destruct (Z.eqb_spec (day d) 29); cbn [andb];
        destruct (is_leap_year (year d + years_change t)); cbn [negb]; lia.
    - destruct (Z.le_gt_cases (day d) (days_in_month m' (year d + years_change t)));
        [left | right]; lia. }
  destruct (Z.gtb_spec (day d1) (days_in_month (month d1) (year d1))); fields; lia.
Qed.

Lemma add_months_invariants d n : invariants d -> invariants (add_months d n).
Proof.
  intros (Hm & Hd & Hh & Hmi & Hw).
  pose proof (days_in_month_range _ (year d) Hm) as Hr.
  destruct (add_months_fields d n) as (Em & _ & Eh & Emi & _ & Ew & _).
  pose proof (add_months_day d n) as Ed. cbv zeta in Ed.
  assert (Hm' : 1 <= month (add_months d n) <= 12)
    by (rewrite Em; Z.to_euclidean_division_equations; lia).
  pose proof (days_in_month_range _ (year (add_months d n)) Hm') as Hr'.
  unfold invariants. rewrite Eh, Emi, Ew. repeat split; lia.
Qed.

(** C5: every mutation maps a timestamp that satisfies the field-range
    invariants (month in 1..12, day in 1..days_in_month, hour in 0..23,
    minute in 0..59, weekday in 0..6) to one that satisfies them again, for
    every signed delta. *)
Theorem mutations_preserve_invariants (d : arcdate_t) (n : Z) :
  invariants d ->
  invariants (add_minutes d n) /\ invariants (add_hours d n) /\
  invariants (add_days d n) /\ invariants (add_months d n) /\
  invariants (add_years d n) /\ invariants (convert d n).
Proof.
  intros Hd. pose proof (invariants_ranges d Hd) as Hr.
  refine (conj _ (conj _ (conj _ (conj _ (conj _ _))))).
  - apply add_minutes_invariants, Hr.
  - apply add_hours_invariants, Hr.
  - apply add_days_invariants, Hr.
  - apply add_months_invariants, Hd.
  - apply add_years_invariants, Hd.
  - apply convert_invariants, Hr.
Qed.

Lemma mutations_preserve_invariants_witness :
  invariants wed_21_oct_2015 /\
  invariants (add_minutes wed_21_oct_2015 (-90)) /\
  invariants (add_days wed_21_oct_2015 400).
Proof.
  assert (H : invariants wed_21_oct_2015) by (repeat split; vm_compute; congruence).
  split; [exact H |].
  split.
  - apply (mutations_preserve_invariants wed_21_oct_2015 (-90) H).
  - apply (mutations_preserve_invariants wed_21_oct_2015 400 H).
Defined.

(** ** Zero deltas *)

Lemma add_days_zero d :
  1 <= day d <= days_in_month (month d) (year d) -> add_days d 0 = d.
Proof.
  intros Hd. unfold add_days.
  replace (set_day d (day d + 0)) with d
    by (destruct d; unfold set_day; fields; f_equal; lia).
  rewrite carry_loop_exit by (unfold carry_cond; rewrite Z.gtb_ltb; apply Z.ltb_ge; lia).
  apply borrow_loop_exit. unfold borrow_cond. apply Z.ltb_ge. lia.
Qed.

Lemma add_hours_zero d :
  0 <= hour d <= 23 -> 1 <= day d <= days_in_month (month d) (year d) ->
  add_hours d 0 = d.
Proof.
  intros Hh Hd. unfold add_hours.
  replace (days_change (hour d + 0)) with 0
    by (unfold days_change; destruct (Z.ltb_spec (hour d + 0) 0);
        Z.to_euclidean_division_equations; lia).
  replace (set_hour d _) with d.
  - apply add_days_zero; assumption.
  - destruct d; unfold set_hour; fields; f_equal.
    Z.to_euclidean_division_equations; lia.
Qed.

Lemma add_minutes_zero d :
  0 <= minute d <= 59 -> 0 <= hour d <= 23 ->
  1 <= day d <= days_in_month (month d) (year d) ->
  add_minutes d 0 = d.
Proof.
  intros Hmi Hh Hd. unfold add_minutes.
  replace (hours_change (minute d + 0)) with 0
    by (unfold hours_change; destruct (Z.ltb_spec (minute d + 0) 0);
        Z.to_euclidean_division_equations; lia).
  replace (set_minute d _) with d.
  - apply add_hours_zero; assumption.
  - destruct d; unfold set_minute; fields; f_equal.
    Z.to_euclidean_division_equations; lia.
Qed.

Lemma add_years_zero d :
  day d <= days_in_month (month d) (year d) -> add_years d 0 = d.
Proof.
  destruct d as [y m dd h mi s w g]. unfold add_years; fields. intros Hd.
  replace (y + 0) with y by lia.
  destruct (Z.eqb_spec m 2) as [-> | _]; cbn [andb]; [ | reflexivity].
  rewrite days_in_month_feb in Hd.
  destruct (Z.eqb_spec dd 29) as [-> | _]; cbn [andb]; [ | reflexivity].
  destruct (is_leap_year y); cbn [negb]; [reflexivity | lia].
Qed.

Lemma add_months_zero d :
  1 <= month d <= 12 -> day d <= days_in_month (month d) (year d) ->
  add_months d 0 = d.
Proof.
  intros Hm Hd. unfold add_months.
  replace (years_change (month d + 0 - 1)) with 0
    by (unfold years_change; destruct (Z.ltb_spec (month d + 0 - 1) 0);
        Z.to_euclidean_division_equations; lia).
  replace (set_month d _) with d
    by (destruct d; unfold set_month; fields; f_equal;
        Z.to_euclidean_division_equations; lia).
  rewrite add_years_zero by assumption.
  destruct (Z.gtb_spec (day d) (days_in_month (month d) (year d))); [lia | reflexivity].
Qed.

(** C6: a zero delta is the identity: on a timestamp that satisfies the
    invariants, [add_days], [add_hours], [add_minutes], [add_months] and
    [add_years] with delta 0 leave every field unchanged. *)
Theorem zero_delta_is_identity (d : arcdate_t) :
  invariants d ->
  add_days d 0 = d /\ add_hours d 0 = d /\ add_minutes d 0 = d /\
  add_months d 0 = d /\ add_years d 0 = d.
Proof.
  intros (Hm & Hd & Hh & Hmi & Hw).
  refine (conj _ (conj _ (conj _ (conj _ _)))).
  - apply add_days_zero; assumption.
  - apply add_hours_zero; assumption.
  - apply add_minutes_zero; assumption.
  - apply add_months_zero; [assumption | lia].
  - apply add_years_zero; lia.
Qed.

Lemma zero_delta_is_identity_witness :
  invariants wed_21_oct_2015 /\ add_minutes wed_21_oct_2015 0 = wed_21_oct_2015.
Proof.
  assert (H : invariants wed_21_oct_2015) by (repeat split; vm_compute; congruence).
  split; [exact H |].
  apply (zero_delta_is_identity wed_21_oct_2015 H).
Defined.

(** ** Month clamp *)

(** C7: [add_months] wraps the month into 1..12 by floor modulo and then
    clamps the day down to the length of the new month in the new year;
    31 January plus one month is 28 February in a common year and
    29 February in a leap year. *)
Theorem add_months_clamps_day (d : arcdate_t) (n : Z) :
  invariants d ->
  (let d' := add_months d n in
   month d' = (month d - 1 + n) mod 12 + 1 /\ 1 <= month d' <= 12 /\
   day d' = Z.min (day d) (days_in_month (month d') (year d'))) /\
  (month d = 1 -> day d = 31 ->
   let d' := add_months d 1 in
   year d' = year d /\ month d' = 2 /\
   day d' = if is_leap_year (year d) then 29 else 28).
Proof.
  intros Hd. split.
  - cbv zeta. destruct (add_months_fields d n) as (Em & _).
    repeat split.
    + exact Em.
    + rewrite Em. Z.to_euclidean_division_equations; lia.
    + rewrite Em. Z.to_euclidean_division_equations; lia.
    + apply add_months_day.
  - intros E1 E31. cbv zeta.
    destruct (add_months_fields d 1) as (Em & Ey & _).
    pose proof (add_months_day d 1) as Ed. cbv zeta in Ed.
    rewrite E1 in Em, Ey. change ((1 - 1 + 1) mod 12 + 1) with 2 in Em.
    change (years_change (1 + 1 - 1)) with 0 in Ey.
    rewrite Em, Ey, E31 in Ed. replace (year d + 0) with (year d) in * by lia.
    rewrite days_in_month_feb in Ed.
    repeat split; [lia | exact Em |].
    rewrite Ed. destruct (is_leap_year (year d)); reflexivity.
Qed.

Lemma add_months_clamps_day_witness :
  invariants (mk_arcdate 2024 1 31 7 28 0 3 0) /\
  day (add_months (mk_arcdate 2024 1 31 7 28 0 3 0) 1) = 29 /\
  day (add_months (mk_arcdate 2024 1 31 7 28 0 3 0) 13) = 28.
Proof.
  assert (H : invariants (mk_arcdate 2024 1 31 7 28 0 3 0))
    by (repeat split; vm_compute; congruence).
  split; [exact H |].
  split.
  - exact (proj2 (proj2 (proj2 (add_months_clamps_day _ 1 H) eq_refl eq_refl))).
  - pose proof (proj1 (add_months_clamps_day _ 13 H)) as (_ & _ & Ed).
    rewrite Ed. vm_compute. reflexivity.
Defined.

(** ** Carries *)

(** Each carry is the floor quotient, except that it is one less when the
    combined value is a negative exact multiple of the base: the code
    decrements the truncating quotient for every negative dividend. *)
Lemma hours_change_floor t :
  hours_change t = t / 60 - (if (t <? 0) && (t mod 60 =? 0) then 1 else 0).
Proof.
  unfold hours_change.
  destruct (Z.ltb_spec t 0); destruct (Z.eqb_spec (t mod 60) 0); cbn [andb];
    Z.to_euclidean_division_equations; lia.
Qed.

Lemma days_change_floor t :
  days_change t = t / 24 - (if (t <? 0) && (t mod 24 =? 0) then 1 else 0).
Proof.
  unfold days_change.
  destruct (Z.ltb_spec t 0); destruct (Z.eqb_spec (t mod 24) 0); cbn [andb];
    Z.to_euclidean_division_equations; lia.
Qed.

Lemma years_change_floor t :
  years_change t = t / 12 - (if (t <? 0) && (t mod 12 =? 0) then 1 else 0).
Proof.
  unfold years_change.
  destruct (Z.ltb_spec t 0); destruct (Z.eqb_spec (t mod 12) 0); cbn [andb];
    Z.to_euclidean_division_equations; lia.
Qed.

(** The remainders, in contrast, are always the floor remainders. *)
Lemma double_modulo_floor t :
  Z.rem (Z.rem t 60 + 60) 60 = t mod 60 /\
  Z.rem (Z.rem t 24 + 24) 24 = t mod 24 /\
  Z.rem (Z.rem t 12 + 12) 12 = t mod 12.
Proof. repeat split; Z.to_euclidean_division_equations; lia. Qed.

(** C1: the carries are not the floor quotients.  Subtracting 60 minutes
    from 12:00 carries [-2] hours where floor division gives [-1], and the
    clock lands on 10:00; likewise [-24] hours from 00:00 carry [-2] days
    and [-12] months from January carry [-2] years. *)
Theorem carry_differs_from_floor_division :
  invariants noon_21_oct_2015 /\
  hours_change (minute noon_21_oct_2015 + -60) = -2 /\
  (minute noon_21_oct_2015 + -60) / 60 = -1 /\
  hour (add_minutes noon_21_oct_2015 (-60)) = 10 /\
  days_change (0 + -24) = -2 /\ (0 + -24) / 24 = -1 /\
  years_change (1 + -12 - 1) = -2 /\ (1 - 1 + -12) / 12 = -1.
Proof.
  split; [repeat split; vm_compute; congruence |].
  vm_compute. repeat split; reflexivity.
Qed.

(** ** [add_days] is exact day arithmetic *)

Lemma days_before_month_succ m y :
  1 <= m -> days_before_month (m + 1) y = days_before_month m y + days_in_month m y.
Proof.
  intros Hm. unfold days_before_month.
  replace (Z.to_nat (m + 1 - 1)) with (S (Z.to_nat (m - 1))) by lia.
  rewrite seq_S, map_app, fold_right_app. cbn [map fold_right].
  replace (Z.of_nat (1 + Z.to_nat (m - 1))) with m by lia.
  generalize (seq 1 (Z.to_nat (m - 1))). intros l.
  induction l as [| k l IH]; cbn [map fold_right]; lia.
Qed.

Lemma days_before_year_succ y :
  days_before_year (y + 1) = days_before_year y + 365 + (if is_leap_year y then 1 else 0).
Proof.
  unfold days_before_year. replace (y + 1 - 1) with y by lia.
  unfold is_leap_year.
  destruct (Z.eqb_spec (Z.rem y 4) 0), (Z.eqb_spec (Z.rem y 100) 0),
    (Z.eqb_spec (Z.rem y 400) 0); cbn [negb];
    Z.to_euclidean_division_equations; lia.
Qed.

Lemma days_before_year_mono y y' : y <= y' -> days_before_year y <= days_before_year y'.
Proof.
  intros H. unfold days_before_year. Z.to_euclidean_division_equations; lia.
Qed.

Lemma days_before_month_12 y :
  days_before_month 12 y = 334 + (if is_leap_year y then 1 else 0).
Proof.
  unfold days_before_month, days_in_month. destruct (is_leap_year y); reflexivity.
Qed.

Lemma carry_body_date_number x :
  1 <= month x <= 12 -> date_number (carry_body x) = date_number x.
Proof.
  destruct x as [y m d h mi s w g].
  unfold date_number, day_number, carry_body; fields. intros Hm.
  destruct (Z.gtb_spec (m + 1) 12); fields.
  - assert (m = 12) by lia. subst m.
    rewrite days_before_year_succ, days_before_month_12.
    change (days_before_month 1 (y + 1)) with 0.
    change (days_in_month 12 y) with 31. lia.
  - rewrite days_before_month_succ by lia. lia.
Qed.

Lemma borrow_body_date_number x :
  1 <= month x <= 12 -> date_number (borrow_body x) = date_number x.
Proof.
  destruct x as [y m d h mi s w g].
  unfold date_number, day_number, borrow_body; fields. intros Hm.
  destruct (Z.ltb_spec (m - 1) 1); fields.
  - assert (m = 1) by lia. subst m.
    pose proof (days_before_year_succ (y - 1)) as E.
    replace (y - 1 + 1) with y in E by lia.
    rewrite E, days_before_month_12.
    change (days_before_month 1 y) with 0.
    change (days_in_month 12 (y - 1)) with 31. lia.
  - pose proof (days_before_month_succ (m - 1) y ltac:(lia)) as E.
    replace (m - 1 + 1) with m in E by lia. lia.
Qed.

(** [add_days] moves the timestamp by exactly [days] calendar days. *)
Lemma add_days_date_number d days :
  ranges_except_day d -> date_number (add_days d days) = date_number d + days.
Proof.
  intros Hd. unfold add_days.
  set (d0 := set_day d (day d + days)).
  set (I := fun x => ranges_except_day x /\ date_number x = date_number d + days).
  assert (H0 : I d0).
  { split; [exact Hd |]. unfold d0, date_number, day_number; fields. lia. }
  destruct (carry_loop_invariant I d0) as [H1 _]; [ | exact H0 | ].
  { intros x [Hx E] _. split; [apply carry_body_ranges, Hx |].
    rewrite carry_body_date_number by apply Hx. exact E. }
  destruct (borrow_loop_invariant I (carry_loop d0)) as [[_ H2] _]; [ | exact H1 | exact H2 ].
  intros x [Hx E] _. split; [apply borrow_body_ranges, Hx |].
  rewrite borrow_body_date_number by apply Hx. exact E.
Qed.

Lemma days_in_month_nonneg m y : 0 <= days_in_month m y.
Proof. dim_cases m y H. lia. Qed.

Lemma days_before_month_mono a b y :
  1 <= a <= b -> days_before_month a y <= days_before_month b y.
Proof.
  intros [Ha Hab]. revert b Hab. apply Z.le_ind.
  - intros x x' ->. reflexivity.
  - lia.
  - intros b Hab IH. unfold Z.succ. rewrite days_before_month_succ by lia.
    pose proof (days_in_month_nonneg b y). lia.
Qed.

(** The last day of a month is followed by the first of the next, and
    the days of a year fit in 365 or 366. *)
Lemma days_before_month_bounds m y :
  1 <= m <= 12 ->
  0 <= days_before_month m y /\
  days_before_month m y + days_in_month m y
  <= 365 + (if is_leap_year y then 1 else 0).
Proof.
  intros Hm. split.
  - change 0 with (days_before_month 1 y). apply days_before_month_mono. lia.
  - rewrite <- days_before_month_succ by lia.
    destruct (Z.eq_dec m 12) as [-> | Hne].
    + unfold days_before_month, days_in_month. destruct (is_leap_year y); vm_compute; congruence.
    + pose proof (days_before_month_mono (m + 1) 12 y ltac:(lia)) as H.
      rewrite days_before_month_12 in H. destruct (is_leap_year y); lia.
Qed.

(** A calendar date is determined by its day number. *)
Lemma date_number_injective x x' :
  invariants x -> invariants x' -> date_number x = date_number x' ->
  year x = year x' /\ month x = month x' /\ day x = day x'.
Proof.
  destruct x as [y m d h mi s w g], x' as [y' m' d' h' mi' s' w' g'].
  unfold invariants, date_number, day_number; fields.
  intros (Hm & Hd & _) (Hm' & Hd' & _) E.
  pose proof (days_before_month_bounds m y Hm) as [B1 B2].
  pose proof (days_before_month_bounds m' y' Hm') as [B1' B2'].
  pose proof (days_before_year_succ y) as Sy.
  pose proof (days_before_year_succ y') as Sy'.
  destruct (Z.lt_trichotomy y y') as [Hlt | [<- | Hgt]].
  - pose proof (days_before_year_mono (y + 1) y' ltac:(lia)). lia.
  - split; [reflexivity |].
    destruct (Z.lt_trichotomy m m') as [Hlt | [<- | Hgt]].
    + pose proof (days_before_month_mono (m + 1) m' y ltac:(lia)) as M.
      rewrite days_before_month_succ in M by lia. lia.
    + split; [reflexivity | lia].
    + pose proof (days_before_month_mono (m' + 1) m y ltac:(lia)) as M.
      rewrite days_before_month_succ in M by lia. lia.
  - pose proof (days_before_year_mono (y' + 1) y ltac:(lia)). lia.
Qed.

(** ** Weekday tracking *)

Lemma carry_body_weekday x :
  ranges_except_day x ->
  month_index (carry_body x) = month_index x + 1 /\
  weekday (carry_body x) = (weekday x + 1) mod 7.
Proof.
  destruct x as [y m d h mi s w g].
  unfold ranges_except_day, month_index, carry_body; fields. intros (Hm & _ & _ & Hw).
  split_cmp; split; try lia; Z.to_euclidean_division_equations; lia.
Qed.

Lemma borrow_body_weekday x :
  ranges_except_day x ->
  month_index (borrow_body x) = month_index x - 1 /\
  weekday (borrow_body x) = (weekday x - 1) mod 7.
Proof.
  destruct x as [y m d h mi s w g].
  unfold ranges_except_day, month_index, borrow_body; fields. intros (Hm & _ & _ & Hw).
  split_cmp; split; try lia; Z.to_euclidean_division_equations; lia.
Qed.

(** [add_days] moves the weekday by the number of month boundaries that
    the day carry crosses, whatever the number of days. *)
Lemma add_days_weekday d n :
  ranges_except_day d ->
  weekday (add_days d n) = (weekday d + (month_index (add_days d n) - month_index d)) mod 7.
Proof.
  intros Hd. unfold add_days.
  set (d0 := set_day d (day d + n)).
  set (I := fun x => ranges_except_day x /\
                     weekday x = (weekday d + (month_index x - month_index d)) mod 7).
  assert (H0 : I d0).
  { split; [exact Hd |]. unfold d0, month_index; fields.
    destruct Hd as (_ & _ & _ & Hw). Z.to_euclidean_division_equations; lia. }
  destruct (carry_loop_invariant I d0) as [H1 _]; [ | exact H0 | ].
  { intros x [Hx Hw] _. destruct (carry_body_weekday x Hx) as [Ei Ew].
    split; [apply carry_body_ranges, Hx |].
    rewrite Ew, Ei, Hw. Z.to_euclidean_division_equations; lia. }
  destruct (borrow_loop_invariant I (carry_loop d0)) as [[_ H2] _]; [ | exact H1 | exact H2 ].
  intros x [Hx Hw] _. destruct (borrow_body_weekday x Hx) as [Ei Ew].
  split; [apply borrow_body_ranges, Hx |].
  rewrite Ew, Ei, Hw. Z.to_euclidean_division_equations; lia.
Qed.

Lemma add_hours_weekday d n :
  ranges_except_day d ->
  weekday (add_hours d n) = (weekday d + (month_index (add_hours d n) - month_index d)) mod 7.
Proof.
  intros (Hm & Hh & Hmi & Hw). unfold add_hours.
  set (d0 := set_hour d _).
  change (weekday d) with (weekday d0). change (month_index d) with (month_index d0).
  apply add_days_weekday. unfold d0, ranges_except_day; fields.
  repeat split; try lia; Z.to_euclidean_division_equations; lia.
Qed.

Lemma add_minutes_weekday d n :
  ranges_except_day d ->
  weekday (add_minutes d n)
  = (weekday d + (month_index (add_minutes d n) - month_index d)) mod 7.
Proof.
  intros (Hm & Hh & Hmi & Hw). unfold add_minutes.
  set (d0 := set_minute d _).
  change (weekday d) with (weekday d0). change (month_index d) with (month_index d0).
  apply add_hours_weekday. unfold d0, ranges_except_day; fields.
  repeat split; try lia; Z.to_euclidean_division_equations; lia.
Qed.

(** The day count behind [weekday_of] grows by one from each day to the
    next, inside a month and across the end of a month or year. *)
Lemma day_number_next_month m y :
  1 <= m <= 11 -> day_number y (m + 1) 1 = day_number y m (days_in_month m y) + 1.
Proof.
  intros Hm. unfold day_number. rewrite days_before_month_succ by lia. lia.
Qed.

Lemma day_number_next_year y :
  day_number (y + 1) 1 1 = day_number y 12 31 + 1.
Proof.
  unfold day_number. rewrite days_before_year_succ, days_before_month_12.
  change (days_before_month 1 (y + 1)) with 0. lia.
Qed.

(** On a timestamp whose weekday is right, [add_days] leaves a right
    weekday exactly when the number of days and the number of month
    boundaries crossed agree modulo 7. *)
Lemma add_days_consistent_iff d days :
  invariants d -> weekday_consistent d ->
  weekday_consistent (add_days d days) <->
  (days - (month_index (add_days d days) - month_index d)) mod 7 = 0.
Proof.
  intros Hd Hc. pose proof (invariants_ranges d Hd) as Hr.
  unfold weekday_consistent, weekday_of in *.
  pose proof (add_days_date_number d days Hr) as En. unfold date_number in En.
  rewrite En, (add_days_weekday d days Hr), Hc.
  generalize (month_index (add_days d days) - month_index d).
  generalize (day_number (year d) (month d) (day d)). intros a b.
  split; intros H; Z.to_euclidean_division_equations; lia.
Qed.

(** C3, as the code has it: the weekday moves one step per month boundary
    crossed by the day carry of [add_days], [add_hours] and [add_minutes]
    (forwards or backwards), so it is unchanged while the timestamp stays
    in its month; [add_months] and [add_years] never change it. *)
Theorem weekday_steps_once_per_month_boundary (d : arcdate_t) (n : Z) :
  invariants d ->
  weekday (add_days d n)
  = (weekday d + (month_index (add_days d n) - month_index d)) mod 7 /\
  weekday (add_hours d n)
  = (weekday d + (month_index (add_hours d n) - month_index d)) mod 7 /\
  weekday (add_minutes d n)
  = (weekday d + (month_index (add_minutes d n) - month_index d)) mod 7 /\
  weekday (add_months d n) = weekday d /\
  weekday (add_years d n) = weekday d.
Proof.
  intros Hd. pose proof (invariants_ranges d Hd) as Hr.
  refine (conj _ (conj _ (conj _ (conj _ _)))).
  - apply add_days_weekday, Hr.
  - apply add_hours_weekday, Hr.
  - apply add_minutes_weekday, Hr.
  - apply (add_months_fields d n).
  - apply (add_years_fields d n).
Qed.

Lemma weekday_steps_once_per_month_boundary_witness :
  invariants wed_21_oct_2015 /\
  weekday (add_days wed_21_oct_2015 11)
  = (weekday wed_21_oct_2015
     + (month_index (add_days wed_21_oct_2015 11) - month_index wed_21_oct_2015)) mod 7.
Proof.
  assert (H : invariants wed_21_oct_2015) by (repeat split; vm_compute; congruence).
  split; [exact H |].
  apply (weekday_steps_once_per_month_boundary wed_21_oct_2015 11 H).
Defined.

(** C3 as stated fails: Wednesday 21 October 2015 plus two days is
    23 October 2015, a Friday, and the weekday field still says Wednesday. *)
Lemma weekday_not_tracked_per_day :
  invariants wed_21_oct_2015 /\ weekday_consistent wed_21_oct_2015 /\
  ~ weekday_consistent (add_days wed_21_oct_2015 2).
Proof.
  split; [repeat split; vm_compute; congruence |].
  split; [vm_compute; reflexivity |].
  vm_compute. discriminate.
Qed.

(** ** Conversions *)

(** [add_days] leaves the clock and the offset alone. *)
Lemma add_days_frame d days :
  hour (add_days d days) = hour d /\ minute (add_days d days) = minute d /\
  second (add_days d days) = second d /\ gmt_offset (add_days d days) = gmt_offset d.
Proof.
  unfold add_days.
  set (I := fun x => hour x = hour d /\ minute x = minute d /\
                     second x = second d /\ gmt_offset x = gmt_offset d).
  assert (H0 : I (set_day d (day d + days))) by (repeat split).
  destruct (carry_loop_invariant I (set_day d (day d + days))) as [H1 _]; [ | exact H0 | ].
  { intros x Hx _. destruct x. unfold I, carry_body in *; fields. split_cmp; exact Hx. }
  destruct (borrow_loop_invariant I (carry_loop (set_day d (day d + days))))
    as [H2 _]; [ | exact H1 | exact H2].
  intros x Hx _. destruct x. unfold I, borrow_body in *; fields. split_cmp; exact Hx.
Qed.

(** A timestamp is determined by its hour count, its minute, second and
    offset, and a weekday that follows the month by the rule of the code. *)
Lemma timestamp_unique w0 i0 x x' :
  invariants x -> invariants x' ->
  24 * date_number x + hour x = 24 * date_number x' + hour x' ->
  minute x = minute x' -> second x = second x' -> gmt_offset x = gmt_offset x' ->
  weekday x = (w0 + (month_index x - i0)) mod 7 ->
  weekday x' = (w0 + (month_index x' - i0)) mod 7 ->
  x = x'.
Proof.
  intros V V' E Emi Es Eg Ew Ew'.
  assert (Eh : date_number x = date_number x' /\ hour x = hour x').
  { destruct V as (_ & _ & Hh & _), V' as (_ & _ & Hh' & _). lia. }
  destruct Eh as [En Eh].
  destruct (date_number_injective x x' V V' En) as (Ey & Em & Ed).
  unfold month_index in *. rewrite Ey, Em in Ew. rewrite <- Ew' in Ew.
  destruct x, x'; fields. congruence.
Qed.

(** What [add_hours] does when its carry is the floor quotient. *)
Lemma add_hours_spec d hours :
  ranges_except_day d -> ~ negative_multiple 24 (hour d + hours) ->
  let x := add_hours d hours in
  invariants x /\
  24 * date_number x + hour x = 24 * date_number d + hour d + hours /\
  minute x = minute d /\ second x = second d /\ gmt_offset x = gmt_offset d /\
  weekday x = (weekday d + (month_index x - month_index d)) mod 7.
Proof.
  intros Hd Hnm. cbv zeta.
  refine (conj (add_hours_invariants d hours Hd) (conj _ _)).
  - destruct Hd as (Hm & Hh & Hmi & Hw). unfold add_hours.
    set (t := hour d + hours) in *.
    set (d0 := set_hour d (Z.rem (Z.rem t 24 + 24) 24)).
    assert (Hd0 : ranges_except_day d0).
    { unfold d0, ranges_except_day; fields.
      repeat split; try lia; Z.to_euclidean_division_equations; lia. }
    rewrite (add_days_date_number d0 _ Hd0).
    destruct (add_days_frame d0 (days_change t)) as (-> & _).
    change (date_number d0) with (date_number d).
    unfold d0; fields. rewrite days_change_floor.
    unfold negative_multiple in Hnm.
    destruct (Z.ltb_spec t 0), (Z.eqb_spec (t mod 24) 0); cbn [andb];
      try (exfalso; apply Hnm; split; assumption);
      Z.to_euclidean_division_equations; lia.
  - unfold add_hours.
    destruct (add_days_frame (set_hour d (Z.rem (Z.rem (hour d + hours) 24 + 24) 24))
                (days_change (hour d + hours))) as (_ & -> & -> & ->).
    refine (conj eq_refl (conj eq_refl (conj eq_refl _))).
    apply (add_hours_weekday d hours Hd).
Qed.

(** What [convert] does when the carry of [add_hours] is the floor
    quotient. *)
Lemma convert_spec d X :
  ranges_except_day d -> ~ negative_multiple 24 (hour d + (X - gmt_offset d)) ->
  let x := convert d X in
  invariants x /\
  24 * date_number x + hour x = 24 * date_number d + hour d + (X - gmt_offset d) /\
  minute x = minute d /\ second x = second d /\ gmt_offset x = X /\
  weekday x = (weekday d + (month_index x - month_index d)) mod 7.
Proof.
  intros Hd Hnm. cbv zeta. unfold convert.
  pose proof (add_hours_spec d (X - gmt_offset d) Hd Hnm) as H. cbv zeta in H.
  revert H. generalize (add_hours d (X - gmt_offset d)). intros x H.
  destruct x. exact (conj (proj1 H) (conj (proj1 (proj2 H))
    (conj (proj1 (proj2 (proj2 H))) (conj (proj1 (proj2 (proj2 (proj2 H))))
    (conj eq_refl (proj2 (proj2 (proj2 (proj2 (proj2 H)))))))))).
Qed.

(** Conversions compose as long as no carry of [add_hours] meets a
    negative exact multiple of 24. *)
Lemma convert_convert d X Y :
  invariants d ->
  ~ negative_multiple 24 (hour d + (X - gmt_offset d)) ->
  ~ negative_multiple 24 (hour (convert d X) + (Y - X)) ->
  ~ negative_multiple 24 (hour d + (Y - gmt_offset d)) ->
  convert (convert d X) Y = convert d Y.
Proof.
  intros Hd N1 N2 N3. pose proof (invariants_ranges d Hd) as Hr.
  pose proof (convert_spec d X Hr N1) as S1. cbv zeta in S1.
  pose proof (convert_spec d Y Hr N3) as S3. cbv zeta in S3.
  revert N2 S1. generalize (convert d X). intros x1 N2 (V1 & E1 & M1 & C1 & G1 & W1).
  rewrite <- G1 in N2.
  pose proof (convert_spec x1 Y (invariants_ranges x1 V1) N2) as S2. cbv zeta in S2.
  revert S2 S3. generalize (convert x1 Y) (convert d Y).
  intros x2 x3 (V2 & E2 & M2 & C2 & G2 & W2) (V3 & E3 & M3 & C3 & G3 & W3).
  apply (timestamp_unique (weekday d) (month_index d)); try assumption; try congruence.
  - lia.
  - rewrite W2, W1. Z.to_euclidean_division_equations; lia.
Qed.

(** C4: two conversions in a row differ from the direct conversion.  From
    00:00 at GMT+12, converting to GMT-12 and then to GMT+0 gives 12:00 on
    19 October, the direct conversion to GMT+0 gives 12:00 on 20 October. *)
Theorem convert_twice_differs_from_convert_once :
  invariants midnight_gmt_plus_12 /\
  convert (convert midnight_gmt_plus_12 (-12)) 0 = mk_arcdate 2015 10 19 12 0 0 3 0 /\
  convert midnight_gmt_plus_12 0 = mk_arcdate 2015 10 20 12 0 0 3 0.
Proof.
  split; [repeat split; vm_compute; congruence |].
  split; vm_compute; reflexivity.
Qed.

(** ** Termination of [add_days] *)

(** Every iteration of the first loop takes at least 28 days off a
    [day] that is at least 29, and leaves [day] at 1 or more. *)
Lemma carry_runs_bound k s s' :
  while_runs carry_cond carry_body k s s' -> ranges_except_day s ->
  28 * Z.of_nat k <= Z.max 0 (day s - 1) /\ (k <> O \/ 1 <= day s -> 1 <= day s').
Proof.
  induction 1 as [s Hc | k s s' Hc Hrun IH]; intros Hs.
  - split; [lia |]. intros [Hk | Hd]; [contradiction | exact Hd].
  - destruct (IH (carry_body_ranges s Hs)) as [IHk IHd].
    assert (Hday : day (carry_body s) = day s - days_in_month (month s) (year s))
      by (destruct s; unfold carry_body; fields; split_cmp; reflexivity).
    unfold carry_cond in Hc. apply Z.gtb_lt in Hc.
    destruct Hs as (Hm & _).
    pose proof (days_in_month_range _ (year s) Hm) as Hr.
    split; [lia |]. intros _. apply IHd. right. lia.
Qed.

(** Every iteration of the second loop adds at least 28 days to a
    [day] that is at most 0. *)
Lemma borrow_runs_bound k s s' :
  while_runs borrow_cond borrow_body k s s' -> ranges_except_day s ->
  28 * Z.of_nat k <= Z.max 0 (28 - day s).
Proof.
  induction 1 as [s Hc | k s s' Hc Hrun IH]; intros Hs.
  - lia.
  - specialize (IH (borrow_body_ranges s Hs)).
    assert (Hday : day (borrow_body s)
                   = day s + days_in_month (month (borrow_body s)) (year (borrow_body s)))
      by (destruct s; unfold borrow_body; fields; split_cmp; reflexivity).
    destruct (borrow_body_ranges s Hs) as (Hm' & _).
    pose proof (days_in_month_range _ (year (borrow_body s)) Hm') as Hr.
    unfold borrow_cond in Hc. apply Z.ltb_lt in Hc. lia.
Qed.

(** C9: [add_days] terminates.  On a timestamp that satisfies the
    invariants the first loop runs exactly [k1] times and the second exactly
    [k2] times, ending in the result of [add_days], and [k1 + k2] is at most
    [|days| / 28 + 2]. *)
Theorem add_days_loops_are_bounded (d : arcdate_t) (days : Z) :
  invariants d ->
  exists (k1 k2 : nat) (d1 : arcdate_t),
    while_runs carry_cond carry_body k1 (set_day d (day d + days)) d1 /\
    while_runs borrow_cond borrow_body k2 d1 (add_days d days) /\
    Z.of_nat (k1 + k2) <= Z.abs days / 28 + 2.
Proof.
  intros Hd. pose proof (invariants_ranges d Hd) as Hr.
  destruct Hd as (Hm & Hday & _).
  pose proof (days_in_month_range _ (year d) Hm) as Hdim.
  set (d0 := set_day d (day d + days)).
  destruct (carry_loop_runs d0) as [k1 H1].
  destruct (borrow_loop_runs (carry_loop d0)) as [k2 H2].
  exists k1, k2, (carry_loop d0).
  split; [exact H1 |]. split; [exact H2 |].
  assert (Hr0 : ranges_except_day d0) by exact Hr.
  destruct (carry_runs_bound _ _ _ H1 Hr0) as [B1 D1].
  assert (Hr1 : ranges_except_day (carry_loop d0)).
  { apply (while_runs_invariant _ _ ranges_except_day k1 d0 _
             (fun x Hx _ => carry_body_ranges x Hx) H1 Hr0). }
  pose proof (borrow_runs_bound _ _ _ H2 Hr1) as B2.
  assert (E0 : day d0 = day d + days) by reflexivity.
  destruct k1 as [| k1].
  - destruct (while_runs_O _ _ _ _ H1) as [E1 _].
    rewrite E1, E0 in B2. Z.to_euclidean_division_equations; lia.
  - assert (1 <= day (carry_loop d0)) by (apply D1; left; discriminate).
    Z.to_euclidean_division_equations; lia.
Qed.

Lemma add_days_loops_are_bounded_witness :
  invariants wed_21_oct_2015 /\
  exists (k1 k2 : nat) (d1 : arcdate_t),
    while_runs carry_cond carry_body k1
      (set_day wed_21_oct_2015 (day wed_21_oct_2015 + -400)) d1 /\
    while_runs borrow_cond borrow_body k2 d1 (add_days wed_21_oct_2015 (-400)) /\
    Z.of_nat (k1 + k2) <= Z.abs (-400) / 28 + 2.
Proof.
  assert (H : invariants wed_21_oct_2015) by (repeat split; vm_compute; congruence).
  split; [exact H |].
  apply (add_days_loops_are_bounded wed_21_oct_2015 (-400) H).
Defined.

(** ** Parser defaults *)

Lemma find_name_not_in str names i :
  ~ In str names -> find_name str names i = None.
Proof.
  revert i. induction names as [| name names IH]; intros i Hnot; cbn [find_name].
  - reflexivity.
  - destruct (String.eqb_spec str name) as [-> | _].
    + exfalso. apply Hnot. left. reflexivity.
    + apply IH. intros Hin. apply Hnot. right. exact Hin.
Qed.

Lemma find_name_bounds str names i j :
  find_name str names i = Some j -> i <= j < i + Z.of_nat (Datatypes.length names).
Proof.
  revert i. induction names as [| name names IH]; intros i; cbn [find_name Datatypes.length].
  - discriminate.
  - destruct (String.eqb str name).
    + intros [= <-]. lia.
    + intros H. apply IH in H. lia.
Qed.

(** Whatever the text, the parsed month is in 1..12 and the parsed weekday
    in 0..6. *)
Lemma parse_month_range str : 1 <= parse_month str <= 12.
Proof.
  unfold parse_month. destruct (find_name str month_names 0) as [j |] eqn:E; [ | lia].
  apply find_name_bounds in E. cbn [Datatypes.length month_names] in E. lia.
Qed.

Lemma parse_weekday_range str : 0 <= parse_weekday str <= 6.
Proof.
  unfold parse_weekday. destruct (find_name str weekday_names 0) as [j |] eqn:E; [ | lia].
  apply find_name_bounds in E. cbn [Datatypes.length weekday_names] in E. lia.
Qed.

(** C8: an abbreviation that is not in the table does not make the parser
    fail.  [parse_weekday] returns 0 (Sunday) and [parse_month] returns 1
    (January) for it, and [generate_date] still returns a timestamp, whose
    weekday and month fields hold these defaults when the call [add_hours]
    that ends [generate_date] starts. *)
Theorem unknown_abbreviations_default (env : environment) (httpDate : string)
    (gmt_offset : Z) :
  let v := sscanf_http_date httpDate (indeterminate env) in
  (~ In (l_weekday v) weekday_names ->
   parse_weekday (l_weekday v) = 0 /\
   weekday (fill_date env (Some httpDate) gmt_offset) = 0) /\
  (~ In (l_month v) month_names ->
   parse_month (l_month v) = 1 /\
   month (fill_date env (Some httpDate) gmt_offset) = 1) /\
  (malloc_ok env = true ->
   generate_date env (Some httpDate) gmt_offset
   = Some (add_hours (fill_date env (Some httpDate) gmt_offset) gmt_offset)).
Proof.
  cbv zeta. refine (conj _ (conj _ _)).
  - intros Hnot.
    assert (E : parse_weekday (l_weekday (sscanf_http_date httpDate (indeterminate env))) = 0)
      by (unfold parse_weekday; rewrite find_name_not_in by exact Hnot; reflexivity).
    split; [exact E | exact E].
  - intros Hnot.
    assert (E : parse_month (l_month (sscanf_http_date httpDate (indeterminate env))) = 1)
      by (unfold parse_month; rewrite find_name_not_in by exact Hnot; reflexivity).
    split; [exact E | exact E].
  - intros Hok. unfold generate_date. rewrite Hok. reflexivity.
Qed.

Lemma unknown_abbreviations_default_witness :
  weekday (fill_date sample_env (Some "Xyz, 21 Foo 2015 07:28:00 GMT") 0) = 0 /\
  month (fill_date sample_env (Some "Xyz, 21 Foo 2015 07:28:00 GMT") 0) = 1 /\
  generate_date sample_env (Some "Xyz, 21 Foo 2015 07:28:00 GMT") 0
  = Some (mk_arcdate 2015 1 21 7 28 0 0 0).
Proof.
  pose proof (unknown_abbreviations_default sample_env "Xyz, 21 Foo 2015 07:28:00 GMT" 0)
    as (Hw & Hm & Hg).
  split; [ | split].
  - apply Hw. vm_compute. intros H.
    repeat (destruct H as [H | H]; [discriminate H |]). exact H.
  - apply Hm. vm_compute. intros H.
    repeat (destruct H as [H | H]; [discriminate H |]). exact H.
  - rewrite Hg by reflexivity. vm_compute. reflexivity.
Defined.

(** ** Release *)

(** C10: [free_date(NULL)] is a no-op: no block is released and the heap
    is the one before the call. *)
Theorem free_date_null_is_noop (h : heap) :
  free_date h NULL = h /\ dom (free_date h NULL) = dom h.
Proof. split; reflexivity. Qed.

(** Releasing a live timestamp, in contrast, removes exactly its block:
    a timestamp made by [generate_date] and released again leaves the heap
    as it was. *)
Lemma free_date_after_generate_date env (h : heap) httpDate gmt_offset :
  let '(h', p) := generate_date_at env h httpDate gmt_offset in
  free_date h' p = h.
Proof.
  unfold generate_date_at.
  destruct (generate_date env httpDate gmt_offset) as [date |]; cbn [free_date]; [ | reflexivity].
  unfold free. apply delete_insert_id.
  apply not_elem_of_dom, is_fresh.
Qed.

(** ** Scanning what the formatter prints *)

Lemma digit_char_digit a :
  0 <= a <= 9 -> isdigit (digit_char a) = true /\ digit_val (digit_char a) = a.
Proof.
  intros Ha.
  assert (H : a = 0 \/ a = 1 \/ a = 2 \/ a = 3 \/ a = 4 \/ a = 5 \/ a = 6 \/ a = 7
              \/ a = 8 \/ a = 9) by lia.
  destruct H as [H | [H | [H | [H | [H | [H | [H | [H | [H | H]]]]]]]]];
    rewrite H; split; reflexivity.
Qed.

Lemma isdigit_not_space_or_sign c :
  isdigit c = true ->
  isspace c = false /\ Ascii.eqb c "-" = false /\ Ascii.eqb c "+" = false.
Proof.
  intros Hd. refine (conj _ (conj _ _)).
  - unfold isdigit, isspace in *. cbv zeta in *.
    destruct (Nat.leb_spec 48 (nat_of_ascii c)); [ | discriminate].
    destruct (Nat.eqb_spec (nat_of_ascii c) 32); [lia |].
    destruct (Nat.leb_spec (nat_of_ascii c) 13); [lia |].
    rewrite andb_false_r. reflexivity.
  - destruct (Ascii.eqb_spec c "-") as [-> | _]; [discriminate Hd | reflexivity].
  - destruct (Ascii.eqb_spec c "+") as [-> | _]; [discriminate Hd | reflexivity].
Qed.

(** [%d] on a text that starts with a digit reads the digits. *)
Lemma scan_d_digit c r :
  isdigit c = true ->
  scan_d (String c r) = Some (scan_digits 0 (String c r)).
Proof.
  intros Hd. destruct (isdigit_not_space_or_sign c Hd) as (Hs & Hm & Hp).
  unfold scan_d. cbn [skip_ws]. rewrite Hs, Hm, Hp, Hd.
  destruct (scan_digits 0 (String c r)). reflexivity.
Qed.

Lemma scan_d_space r : scan_d (String " " r) = scan_d r.
Proof. reflexivity. Qed.

Lemma scan_s_space w r : scan_s w (String " " r) = scan_s w r.
Proof. reflexivity. Qed.

Lemma skip_ws_idempotent s : skip_ws (skip_ws s) = skip_ws s.
Proof.
  induction s as [| c r IH]; cbn [skip_ws]; [reflexivity |].
  destruct (isspace c) eqn:E; [exact IH |]. cbn [skip_ws]. rewrite E. reflexivity.
Qed.

Lemma scan_d_skip_ws s : scan_d (skip_ws s) = scan_d s.
Proof. unfold scan_d. rewrite skip_ws_idempotent. reflexivity. Qed.

Lemma scan_s_skip_ws w s : scan_s w (skip_ws s) = scan_s w s.
Proof. unfold scan_s. rewrite skip_ws_idempotent. reflexivity. Qed.

Lemma append_String c s t : String c s ++ t = String c (s ++ t).
Proof. reflexivity. Qed.

Lemma append_Empty t : EmptyString ++ t = t.
Proof. reflexivity. Qed.

Lemma scan_d_two_digits n c r :
  0 <= n <= 99 -> isdigit c = false ->
  scan_d (two_digits n ++ String c r) = Some (n, String c r).
Proof.
  intros Hn Hc. unfold two_digits. rewrite !append_String, append_Empty.
  destruct (digit_char_digit (n / 10)) as [D1 V1];
    [Z.to_euclidean_division_equations; lia |].
  destruct (digit_char_digit (n mod 10)) as [D2 V2];
    [Z.to_euclidean_division_equations; lia |].
  rewrite scan_d_digit by exact D1.
  cbn [scan_digits]. rewrite D1, D2, Hc, V1, V2.
  do 2 f_equal. Z.to_euclidean_division_equations; lia.
Qed.

Lemma scan_d_four_digits n c r :
  0 <= n <= 9999 -> isdigit c = false ->
  scan_d (four_digits n ++ String c r) = Some (n, String c r).
Proof.
  intros Hn Hc. unfold four_digits. rewrite !append_String, append_Empty.
  destruct (digit_char_digit (n / 1000)) as [D1 V1];
    [Z.to_euclidean_division_equations; lia |].
  destruct (digit_char_digit (n / 100 mod 10)) as [D2 V2];
    [Z.to_euclidean_division_equations; lia |].
  destruct (digit_char_digit (n / 10 mod 10)) as [D3 V3];
    [Z.to_euclidean_division_equations; lia |].
  destruct (digit_char_digit (n mod 10)) as [D4 V4];
    [Z.to_euclidean_division_equations; lia |].
  rewrite scan_d_digit by exact D1.
  cbn [scan_digits]. rewrite D1, D2, D3, D4, Hc, V1, V2, V3, V4.
  do 2 f_equal. Z.to_euclidean_division_equations; lia.
Qed.

(** [%3s] reads a table name back, and the name is found at its index. *)
Lemma scan_s_weekday_name wd r :
  0 <= wd <= 6 ->
  scan_s 3 (table_get EmptyString weekday_names wd ++ r)
  = Some (table_get EmptyString weekday_names wd, r) /\
  parse_weekday (table_get EmptyString weekday_names wd) = wd.
Proof.
  intros Hwd.
  assert (H : wd = 0 \/ wd = 1 \/ wd = 2 \/ wd = 3 \/ wd = 4 \/ wd = 5 \/ wd = 6) by lia.
  destruct H as [H | [H | [H | [H | [H | [H | H]]]]]]; rewrite H; split; reflexivity.
Qed.

Lemma scan_s_month_name mon r :
  1 <= mon <= 12 ->
  scan_s 3 (table_get EmptyString month_names (mon - 1) ++ r)
  = Some (table_get EmptyString month_names (mon - 1), r) /\
  parse_month (table_get EmptyString month_names (mon - 1)) = mon.
Proof.
  intros Hmon.
  assert (H : mon = 1 \/ mon = 2 \/ mon = 3 \/ mon = 4 \/ mon = 5 \/ mon = 6 \/ mon = 7
              \/ mon = 8 \/ mon = 9 \/ mon = 10 \/ mon = 11 \/ mon = 12) by lia.
  destruct H as [H | [H | [H | [H | [H | [H | [H | [H | [H | [H | [H | H]]]]]]]]]]];
    rewrite H; split; reflexivity.
Qed.

Lemma append_assoc (a b c : string) : (a ++ b) ++ c = a ++ (b ++ c).
Proof.
  induction a as [| x a IH]; [reflexivity |].
  rewrite !append_String, IH. reflexivity.
Qed.

(** The layout with the separators as single characters, followed by any
    further text. *)
Lemma http_date_text_chars wd dd mon yyyy hh mm ss tail :
  http_date_text wd dd mon yyyy hh mm ss ++ tail
  = table_get EmptyString weekday_names wd
    ++ String "," (String " " (two_digits dd
    ++ String " " (table_get EmptyString month_names (mon - 1)
    ++ String " " (four_digits yyyy
    ++ String " " (two_digits hh
    ++ String ":" (two_digits mm
    ++ String ":" (two_digits ss ++ String " " ("GMT" ++ tail)))))))).
Proof. unfold http_date_text. rewrite !append_assoc. reflexivity. Qed.

Lemma append_Empty_r (s : string) : s ++ EmptyString = s.
Proof.
  induction s as [| x s IH]; [reflexivity |].
  rewrite append_String, IH. reflexivity.
Qed.

(** [sscanf] reads the seven fields of a well-formed text and ignores what
    follows it. *)
Lemma sscanf_http_date_text wd dd mon yyyy hh mm ss tail v :
  0 <= wd <= 6 -> 1 <= mon <= 12 -> 0 <= yyyy <= 9999 -> 0 <= dd <= 99 ->
  0 <= hh <= 99 -> 0 <= mm <= 99 -> 0 <= ss <= 99 ->
  sscanf_http_date (http_date_text wd dd mon yyyy hh mm ss ++ tail) v
  = mk_locals (table_get EmptyString weekday_names wd) dd
              (table_get EmptyString month_names (mon - 1)) yyyy hh mm ss.
Proof.
  intros Hwd Hmon Hy Hdd Hhh Hmm Hss.
  rewrite http_date_text_chars. unfold sscanf_http_date.
  rewrite (proj1 (scan_s_weekday_name wd _ Hwd)).
  cbn [scan_lit Ascii.eqb Bool.eqb l_weekday l_day l_month l_year l_hour l_minute l_second].
  rewrite scan_d_skip_ws, scan_d_space, (scan_d_two_digits dd " " _ Hdd eq_refl).
  rewrite scan_s_skip_ws, scan_s_space, (proj1 (scan_s_month_name mon _ Hmon)).
  rewrite scan_d_skip_ws, scan_d_space, (scan_d_four_digits yyyy " " _ Hy eq_refl).
  rewrite scan_d_skip_ws, scan_d_space, (scan_d_two_digits hh ":" _ Hhh eq_refl).
  cbn [scan_lit Ascii.eqb Bool.eqb].
  rewrite (scan_d_two_digits mm ":" _ Hmm eq_refl).
  cbn [scan_lit Ascii.eqb Bool.eqb].
  rewrite (scan_d_two_digits ss " " _ Hss eq_refl).
  reflexivity.
Qed.

(** ** Printing *)

Lemma dec_digits_last fuel n acc :
  n < 10 -> dec_digits (S fuel) n acc = String (digit_char (n mod 10)) acc.
Proof.
  intros Hn. cbn [dec_digits].
  destruct (Z.ltb_spec n 10); [reflexivity | lia].
Qed.

Lemma dec_digits_more fuel n acc :
  10 <= n ->
  dec_digits (S fuel) n acc = dec_digits fuel (n / 10) (String (digit_char (n mod 10)) acc).
Proof.
  intros Hn. cbn [dec_digits].
  destruct (Z.ltb_spec n 10); [lia | reflexivity].
Qed.

(** The digits of a number below 10000, most significant first. *)
Lemma print_unsigned_digits n :
  0 <= n <= 9999 ->
  print_unsigned n =
  if n <? 10 then String (digit_char (n mod 10)) EmptyString
  else if n <? 100 then
    String (digit_char (n / 10 mod 10)) (String (digit_char (n mod 10)) EmptyString)
  else if n <? 1000 then
    String (digit_char (n / 100 mod 10))
      (String (digit_char (n / 10 mod 10)) (String (digit_char (n mod 10)) EmptyString))
  else
    String (digit_char (n / 1000 mod 10))
      (String (digit_char (n / 100 mod 10))
         (String (digit_char (n / 10 mod 10)) (String (digit_char (n mod 10)) EmptyString))).
Proof.
  intros Hn. unfold print_unsigned.
  destruct (Z.ltb_spec n 10) as [H1 | H1].
  { apply dec_digits_last; assumption. }
  pose proof (Z.log2_le_mono 8 n ltac:(lia)) as Hlog.
  change (Z.log2 8) with 3 in Hlog.
  destruct (Z.to_nat (Z.log2 n)) as [| [| [| fuel]]] eqn:E; try lia.
  assert (D1 : n / 10 / 10 = n / 100) by (Z.to_euclidean_division_equations; lia).
  assert (D2 : n / 100 / 10 = n / 1000) by (Z.to_euclidean_division_equations; lia).
  rewrite dec_digits_more by lia.
  destruct (Z.ltb_spec n 100) as [H2 | H2].
  { apply dec_digits_last. Z.to_euclidean_division_equations; lia. }
  rewrite dec_digits_more, D1 by (Z.to_euclidean_division_equations; lia).
  destruct (Z.ltb_spec n 1000) as [H3 | H3].
  { apply dec_digits_last. Z.to_euclidean_division_equations; lia. }
  rewrite dec_digits_more, D2 by (Z.to_euclidean_division_equations; lia).
  apply dec_digits_last. Z.to_euclidean_division_equations; lia.
Qed.

Lemma fmt_d_two_digits n : 0 <= n <= 99 -> fmt_d false 2 n = two_digits n.
Proof.
  intros Hn. unfold fmt_d, two_digits.
  rewrite Z.abs_eq, print_unsigned_digits by lia.
  destruct (Z.ltb_spec n 0); [lia |].
  destruct (Z.ltb_spec n 10).
  - replace (n / 10) with 0 by (Z.to_euclidean_division_equations; lia). reflexivity.
  - destruct (Z.ltb_spec n 100); [ | lia].
    replace (n / 10 mod 10) with (n / 10) by (Z.to_euclidean_division_equations; lia).
    reflexivity.
Qed.

Lemma fmt_d_four_digits n : 0 <= n <= 9999 -> fmt_d false 4 n = four_digits n.
Proof.
  intros Hn. unfold fmt_d, four_digits.
  rewrite Z.abs_eq, print_unsigned_digits by lia.
  destruct (Z.ltb_spec n 0); [lia |].
  destruct (Z.ltb_spec n 10); [ | destruct (Z.ltb_spec n 100); [ | destruct (Z.ltb_spec n 1000)]].
  - replace (n / 1000) with 0 by (Z.to_euclidean_division_equations; lia).
    replace (n / 100 mod 10) with 0 by (Z.to_euclidean_division_equations; lia).
    replace (n / 10 mod 10) with 0 by (Z.to_euclidean_division_equations; lia).
    reflexivity.
  - replace (n / 1000) with 0 by (Z.to_euclidean_division_equations; lia).
    replace (n / 100 mod 10) with 0 by (Z.to_euclidean_division_equations; lia).
    reflexivity.
  - replace (n / 1000) with 0 by (Z.to_euclidean_division_equations; lia).
    reflexivity.
  - replace (n / 1000 mod 10) with (n / 1000) by (Z.to_euclidean_division_equations; lia).
    reflexivity.
Qed.

(** The formatter prints the layout of the parser followed by the signed
    offset. *)
Lemma to_date_string_text env wd dd mon yyyy hh mm ss :
  malloc_ok env = true ->
  0 <= wd <= 6 -> 1 <= mon <= 12 -> 0 <= yyyy <= 9999 -> 0 <= dd <= 99 ->
  0 <= hh <= 99 -> 0 <= mm <= 99 -> 0 <= ss <= 99 ->
  to_date_string env (mk_arcdate yyyy mon dd hh mm ss wd 0)
  = Some (http_date_text wd dd mon yyyy hh mm ss ++ "+0").
Proof.
  intros Hok Hwd Hmon Hy Hdd Hhh Hmm Hss.
  unfold to_date_string; fields. rewrite Hok. cbn [negb]. f_equal.
  rewrite !fmt_d_two_digits, fmt_d_four_digits by assumption.
  assert (H : wd = 0 \/ wd = 1 \/ wd = 2 \/ wd = 3 \/ wd = 4 \/ wd = 5 \/ wd = 6) by lia.
  assert (H' : mon = 1 \/ mon = 2 \/ mon = 3 \/ mon = 4 \/ mon = 5 \/ mon = 6 \/ mon = 7
               \/ mon = 8 \/ mon = 9 \/ mon = 10 \/ mon = 11 \/ mon = 12) by lia.
  destruct H as [H | [H | [H | [H | [H | [H | H]]]]]]; rewrite H;
    destruct H' as [H' | [H' | [H' | [H' | [H' | [H' | [H' | [H' | [H' | [H' | [H' | H']]]]]]]]]]];
    rewrite H'; reflexivity.
Qed.

(** ** Round trip *)

(** Parsing a well-formed text with offset 0, whatever follows the text,
    and formatting the result gives the text followed by ["+0"]. *)
Lemma format_of_parse_text env wd dd mon yyyy hh mm ss tail :
  malloc_ok env = true ->
  0 <= wd <= 6 -> 1 <= mon <= 12 -> 0 <= yyyy <= 9999 ->
  1 <= dd <= days_in_month mon yyyy ->
  0 <= hh <= 23 -> 0 <= mm <= 59 -> 0 <= ss <= 59 ->
  format_of_parse env (http_date_text wd dd mon yyyy hh mm ss ++ tail) 0
  = Some (http_date_text wd dd mon yyyy hh mm ss ++ "+0").
Proof.
  intros Hok Hwd Hmon Hy Hdd Hhh Hmm Hss.
  pose proof (days_in_month_range mon yyyy Hmon) as Hdim.
  unfold format_of_parse, generate_date, fill_date. rewrite Hok. cbn [negb].
  rewrite sscanf_http_date_text by lia.
  cbn [l_weekday l_day l_month l_year l_hour l_minute l_second].
  rewrite (proj2 (scan_s_weekday_name wd EmptyString Hwd)).
  rewrite (proj2 (scan_s_month_name mon EmptyString Hmon)).
  rewrite add_hours_zero by (fields; lia).
  apply to_date_string_text; (assumption || lia).
Qed.

(** C2, as the code has it: parsing a well-formed HTTP date with offset 0
    and formatting the result gives the input text followed by the offset
    suffix ["+0"]. *)
Theorem format_parse_appends_offset (env : environment) (s : string) :
  malloc_ok env = true -> well_formed_http_date s ->
  format_of_parse env s 0 = Some (s ++ "+0").
Proof.
  intros Hok (wd & dd & mon & yyyy & hh & mm & ss & Hwd & Hmon & Hy & Hdd & Hhh & Hmm & Hss & ->).
  rewrite <- (append_Empty_r (http_date_text wd dd mon yyyy hh mm ss)) at 1.
  apply format_of_parse_text; assumption.
Qed.

Lemma format_parse_appends_offset_witness :
  well_formed_http_date sample_text /\
  format_of_parse sample_env sample_text 0 = Some "Wed, 21 Oct 2015 07:28:00 GMT+0".
Proof.
  assert (H : well_formed_http_date sample_text).
  { exists 3, 21, 10, 2015, 7, 28, 0.
    repeat split; try (vm_compute; congruence). }
  split; [exact H |].
  exact (format_parse_appends_offset sample_env sample_text eq_refl H).
Defined.

(** C2 as stated fails: the formatted text of a parsed well-formed date is
    not the input, it ends in ["GMT+0"] where the input ends in ["GMT"]. *)
Lemma format_parse_is_not_identity :
  well_formed_http_date sample_text /\
  format_of_parse sample_env sample_text 0 <> Some sample_text.
Proof.
  split.
  - exists 3, 21, 10, 2015, 7, 28, 0.
    repeat split; try (vm_compute; congruence).
  - vm_compute. discriminate.
Qed.

(** The texts that the round trip does reproduce are the formatter's own:
    a well-formed date followed by ["+0"]. *)
Lemma format_parse_fixes_formatted_text env s :
  malloc_ok env = true -> well_formed_http_date s ->
  format_of_parse env (s ++ "+0") 0 = Some (s ++ "+0").
Proof.
  intros Hok (wd & dd & mon & yyyy & hh & mm & ss & Hwd & Hmon & Hy & Hdd & Hhh & Hmm & Hss & ->).
  apply format_of_parse_text; assumption.
Qed.

(** * Further properties of the code *)

(** ** Leap years and month lengths *)

(** X1: [is_leap_year] is the Gregorian rule, for every year, negative
    years included: divisible by 4 and not by 100, or divisible by 400. *)
Theorem is_leap_year_gregorian (y : Z) :
  is_leap_year y = true <-> (y mod 4 = 0 /\ y mod 100 <> 0) \/ y mod 400 = 0.
Proof.
  unfold is_leap_year.
  destruct (Z.eqb_spec (Z.rem y 4) 0), (Z.eqb_spec (Z.rem y 100) 0),
    (Z.eqb_spec (Z.rem y 400) 0); cbn [negb];
    (split; intros H; [try discriminate H | try reflexivity; exfalso]);
    Z.to_euclidean_division_equations; lia.
Qed.

(** X2: the twelve month lengths of a year add up to 366 in a leap year
    and to 365 otherwise, February has 29 days exactly in leap years, and
    every month has 28 to 31 days. *)
Theorem month_lengths_fill_the_year (y m : Z) :
  fold_right Z.add 0
    (map (fun k => days_in_month k y) [1; 2; 3; 4; 5; 6; 7; 8; 9; 10; 11; 12])
  = (if is_leap_year y then 366 else 365) /\
  (days_in_month 2 y = 29 <-> is_leap_year y = true) /\
  (1 <= m <= 12 -> 28 <= days_in_month m y <= 31).
Proof.
  refine (conj _ (conj _ _)).
  - unfold days_in_month. destruct (is_leap_year y); reflexivity.
  - rewrite days_in_month_feb. destruct (is_leap_year y); split; intros H;
      try reflexivity; discriminate H.
  - apply days_in_month_range.
Qed.

Lemma month_lengths_fill_the_year_witness :
  28 <= days_in_month 2 1900 <= 31 /\ days_in_month 2 1900 = 28.
Proof.
  split.
  - apply (month_lengths_fill_the_year 1900 2). lia.
  - reflexivity.
Defined.

(** ** Day arithmetic *)

(** X3: [add_days] is exact day arithmetic: the result is a valid
    calendar date whose day number is the old one plus [days], and the
    hour, minute, second and offset are the old ones. *)
Theorem add_days_is_day_arithmetic (d : arcdate_t) (days : Z) :
  invariants d ->
  let d' := add_days d days in
  invariants d' /\ date_number d' = date_number d + days /\
  hour d' = hour d /\ minute d' = minute d /\ second d' = second d /\
  gmt_offset d' = gmt_offset d.
Proof.
  intros Hd. pose proof (invariants_ranges d Hd) as Hr. cbv zeta.
  refine (conj _ (conj _ _)).
  - apply add_days_invariants, Hr.
  - apply add_days_date_number, Hr.
  - apply add_days_frame.
Qed.

Lemma add_days_is_day_arithmetic_witness :
  invariants wed_21_oct_2015 /\
  date_number (add_days wed_21_oct_2015 (-800)) = date_number wed_21_oct_2015 + -800.
Proof.
  assert (H : invariants wed_21_oct_2015) by (repeat split; vm_compute; congruence).
  split; [exact H |].
  apply (add_days_is_day_arithmetic wed_21_oct_2015 (-800) H).
Defined.

Lemma add_days_add_days d a b :
  ranges_except_day d -> add_days (add_days d a) b = add_days d (a + b).
Proof.
  intros Hr.
  pose proof (add_days_invariants d a Hr) as V1.
  pose proof (invariants_ranges _ V1) as R1.
  pose proof (add_days_date_number d a Hr) as N1.
  pose proof (add_days_weekday d a Hr) as W1.
  destruct (add_days_frame d a) as (Fh1 & Fm1 & Fs1 & Fg1).
  revert V1 R1 N1 W1 Fh1 Fm1 Fs1 Fg1. generalize (add_days d a). intros x1 V1 R1 N1 W1 Fh1 Fm1 Fs1 Fg1.
  pose proof (add_days_invariants x1 b R1) as V2.
  pose proof (add_days_date_number x1 b R1) as N2.
  pose proof (add_days_weekday x1 b R1) as W2.
  destruct (add_days_frame x1 b) as (Fh2 & Fm2 & Fs2 & Fg2).
  pose proof (add_days_invariants d (a + b) Hr) as V3.
  pose proof (add_days_date_number d (a + b) Hr) as N3.
  pose proof (add_days_weekday d (a + b) Hr) as W3.
  destruct (add_days_frame d (a + b)) as (Fh3 & Fm3 & Fs3 & Fg3).
  revert V2 N2 W2 Fh2 Fm2 Fs2 Fg2 V3 N3 W3 Fh3 Fm3 Fs3 Fg3.
  generalize (add_days x1 b) (add_days d (a + b)).
  intros x2 x3 V2 N2 W2 Fh2 Fm2 Fs2 Fg2 V3 N3 W3 Fh3 Fm3 Fs3 Fg3.
  apply (timestamp_unique (weekday d) (month_index d)); try assumption; try congruence.
  - lia.
  - rewrite W2, W1. Z.to_euclidean_division_equations; lia.
Qed.

(** X4: day additions compose and can be undone: adding [a] days and then
    [b] days is adding [a + b] days, in every field, and adding [- a] days
    after [a] days gives the timestamp back. *)
Theorem add_days_composes (d : arcdate_t) (a b : Z) :
  invariants d ->
  add_days (add_days d a) b = add_days d (a + b) /\
  add_days (add_days d a) (- a) = d.
Proof.
  intros Hd. pose proof (invariants_ranges d Hd) as Hr. split.
  - apply add_days_add_days, Hr.
  - rewrite add_days_add_days by exact Hr.
    replace (a + - a) with 0 by lia. apply add_days_zero, Hd.
Qed.

Lemma add_days_composes_witness :
  invariants wed_21_oct_2015 /\
  add_days (add_days wed_21_oct_2015 400) (-400) = wed_21_oct_2015.
Proof.
  assert (H : invariants wed_21_oct_2015) by (repeat split; vm_compute; congruence).
  split; [exact H |].
  apply (add_days_composes wed_21_oct_2015 400 0 H).
Defined.

(** ** Hour and minute arithmetic *)

Lemma add_hours_number d hours :
  ranges_except_day d ->
  hour_number (add_hours d hours)
  = hour_number d + hours - carry_slip 24 24 (hour d + hours) /\
  minute (add_hours d hours) = minute d /\ second (add_hours d hours) = second d /\
  gmt_offset (add_hours d hours) = gmt_offset d.
Proof.
  intros (Hm & Hh & Hmi & Hw). unfold add_hours, hour_number.
  set (t := hour d + hours).
  set (d0 := set_hour d (Z.rem (Z.rem t 24 + 24) 24)).
  assert (Hd0 : ranges_except_day d0).
  { unfold d0, ranges_except_day; fields.
    repeat split; try lia; Z.to_euclidean_division_equations; lia. }
  rewrite (add_days_date_number d0 _ Hd0).
  destruct (add_days_frame d0 (days_change t)) as (-> & -> & -> & ->).
  change (date_number d0) with (date_number d).
  unfold d0; fields. rewrite days_change_floor. unfold carry_slip.
  split; [ | repeat split].
  destruct ((t <? 0) && (t mod 24 =? 0)); Z.to_euclidean_division_equations; lia.
Qed.

(** X5: [add_hours] moves the timestamp by exactly [hours] hours, counted
    through days, months and years, except that it moves 24 hours further
    back when [hour + hours] is a negative exact multiple of 24; minute,
    second and offset are unchanged. *)
Theorem add_hours_is_hour_arithmetic (d : arcdate_t) (hours : Z) :
  invariants d ->
  let d' := add_hours d hours in
  hour_number d' = hour_number d + hours - carry_slip 24 24 (hour d + hours) /\
  minute d' = minute d /\ second d' = second d /\ gmt_offset d' = gmt_offset d.
Proof.
  intros Hd. cbv zeta. apply add_hours_number, invariants_ranges, Hd.
Qed.

Lemma add_hours_is_hour_arithmetic_witness :
  invariants wed_21_oct_2015 /\
  hour_number (add_hours wed_21_oct_2015 (-31))
  = hour_number wed_21_oct_2015 + -31 - 24 /\
  hour_number (add_hours wed_21_oct_2015 (-30)) = hour_number wed_21_oct_2015 + -30.
Proof.
  assert (H : invariants wed_21_oct_2015) by (repeat split; vm_compute; congruence).
  split; [exact H |].
  split.
  - apply (add_hours_is_hour_arithmetic wed_21_oct_2015 (-31) H).
  - rewrite (proj1 (add_hours_is_hour_arithmetic wed_21_oct_2015 (-30) H)).
    reflexivity.
Defined.

(** X6: [add_minutes] moves the timestamp by exactly [minutes] minutes,
    except that it moves an hour further back when [minute + minutes] is a
    negative exact multiple of 60, and a day further back when the hour
    total that results is a negative exact multiple of 24; second and
    offset are unchanged. *)
Theorem add_minutes_is_minute_arithmetic (d : arcdate_t) (minutes : Z) :
  invariants d ->
  let d' := add_minutes d minutes in
  minute_number d'
  = minute_number d + minutes
    - carry_slip 60 60 (minute d + minutes)
    - 60 * carry_slip 24 24 (hour d + hours_change (minute d + minutes)) /\
  second d' = second d /\ gmt_offset d' = gmt_offset d.
Proof.
  intros Hd. destruct (invariants_ranges d Hd) as (Hm & Hh & Hmi & Hw).
  cbv zeta. unfold add_minutes, minute_number.
  set (t := minute d + minutes).
  set (d0 := set_minute d (Z.rem (Z.rem t 60 + 60) 60)).
  assert (Hd0 : ranges_except_day d0).
  { unfold d0, ranges_except_day; fields.
    repeat split; try lia; Z.to_euclidean_division_equations; lia. }
  destruct (add_hours_number d0 (hours_change t) Hd0) as (-> & -> & -> & ->).
  change (hour_number d0) with (hour_number d). change (hour d0) with (hour d).
  unfold d0; fields. split; [ | split; reflexivity].
  generalize (carry_slip 24 24 (hour d + hours_change t)). intros s2.
  rewrite hours_change_floor. unfold carry_slip.
  destruct ((t <? 0) && (t mod 60 =? 0)); Z.to_euclidean_division_equations; lia.
Qed.

Lemma add_minutes_is_minute_arithmetic_witness :
  invariants wed_21_oct_2015 /\
  minute_number (add_minutes wed_21_oct_2015 (-90))
  = minute_number wed_21_oct_2015 + -90.
Proof.
  assert (H : invariants wed_21_oct_2015) by (repeat split; vm_compute; congruence).
  split; [exact H |].
  rewrite (proj1 (add_minutes_is_minute_arithmetic wed_21_oct_2015 (-90) H)).
  reflexivity.
Defined.

(** ** Whole units *)

Lemma set_minute_same d : set_minute d (minute d) = d.
Proof. destruct d; reflexivity. Qed.

Lemma set_hour_same d : set_hour d (hour d) = d.
Proof. destruct d; reflexivity. Qed.

Lemma set_month_same d : set_month d (month d) = d.
Proof. destruct d; reflexivity. Qed.

(** X7: whole units are handed to the next larger operation: 60 [k]
    minutes are [k] hours, 24 [k] hours are [k] days and 12 [k] months are
    [k] years, in every field, for [k >= 0] and also for [k < 0] unless
    the minute is 0, the hour is 0 or the month is January. *)
Theorem whole_units_delegate (d : arcdate_t) (k : Z) :
  invariants d ->
  (0 <= k \/ 0 < minute d -> add_minutes d (60 * k) = add_hours d k) /\
  (0 <= k \/ 0 < hour d -> add_hours d (24 * k) = add_days d k) /\
  (0 <= k \/ 1 < month d -> add_months d (12 * k) = add_years d k).
Proof.
  intros Hd. pose proof Hd as (Hm & Hday & Hh & Hmi & Hw).
  refine (conj _ (conj _ _)); intros Hk.
  - unfold add_minutes.
    replace (hours_change (minute d + 60 * k)) with k
      by (unfold hours_change; destruct (Z.ltb_spec (minute d + 60 * k) 0);
          Z.to_euclidean_division_equations; lia).
    replace (Z.rem (Z.rem (minute d + 60 * k) 60 + 60) 60) with (minute d)
      by (Z.to_euclidean_division_equations; lia).
    rewrite set_minute_same. reflexivity.
  - unfold add_hours.
    replace (days_change (hour d + 24 * k)) with k
      by (unfold days_change; destruct (Z.ltb_spec (hour d + 24 * k) 0);
          Z.to_euclidean_division_equations; lia).
    replace (Z.rem (Z.rem (hour d + 24 * k) 24 + 24) 24) with (hour d)
      by (Z.to_euclidean_division_equations; lia).
    rewrite set_hour_same. reflexivity.
  - unfold add_months.
    replace (years_change (month d + 12 * k - 1)) with k
      by (unfold years_change; destruct (Z.ltb_spec (month d + 12 * k - 1) 0);
          Z.to_euclidean_division_equations; lia).
    replace (Z.rem (Z.rem (month d + 12 * k - 1) 12 + 12) 12 + 1) with (month d)
      by (Z.to_euclidean_division_equations; lia).
    rewrite set_month_same.
    destruct (add_years_invariants d k Hd) as (_ & Hday' & _).
    destruct (Z.gtb_spec (day (add_years d k))
                (days_in_month (month (add_years d k)) (year (add_years d k))));
      [lia | reflexivity].
Qed.

Lemma whole_units_delegate_witness :
  invariants wed_21_oct_2015 /\
  add_minutes wed_21_oct_2015 (60 * -3) = add_hours wed_21_oct_2015 (-3) /\
  add_hours wed_21_oct_2015 (24 * -40) = add_days wed_21_oct_2015 (-40) /\
  add_months wed_21_oct_2015 (12 * -5) = add_years wed_21_oct_2015 (-5).
Proof.
  assert (H : invariants wed_21_oct_2015) by (repeat split; vm_compute; congruence).
  split; [exact H |].
  destruct (whole_units_delegate wed_21_oct_2015 (-3) H) as (H1 & _).
  destruct (whole_units_delegate wed_21_oct_2015 (-40) H) as (_ & H2 & _).
  destruct (whole_units_delegate wed_21_oct_2015 (-5) H) as (_ & _ & H3).
  split; [ | split].
  - apply H1. right. vm_compute. reflexivity.
  - apply H2. right. vm_compute. reflexivity.
  - apply H3. right. vm_compute. reflexivity.
Defined.

(** ** Months and years *)

Lemma add_months_is_month_arithmetic_fields d months :
  month_index (add_months d months)
  = month_index d + months - carry_slip 12 12 (month d - 1 + months) /\
  hour (add_months d months) = hour d /\ minute (add_months d months) = minute d /\
  second (add_months d months) = second d /\
  weekday (add_months d months) = weekday d /\
  gmt_offset (add_months d months) = gmt_offset d.
Proof.
  destruct (add_months_fields d months) as (Em & Ey & Eh & Emi & Es & Ew & Eg).
  split; [ | repeat split; assumption].
  unfold month_index. rewrite Em, Ey, years_change_floor.
  replace (month d + months - 1) with (month d - 1 + months) by lia.
  unfold carry_slip.
  destruct ((month d - 1 + months <? 0) && ((month d - 1 + months) mod 12 =? 0));
    Z.to_euclidean_division_equations; lia.
Qed.

(** X8: [add_months] moves the month index (12 * year + month) by exactly
    [months], except that it moves 12 months further back when
    [month - 1 + months] is a negative exact multiple of 12; the day never
    grows, and the clock, the weekday and the offset are unchanged. *)
Theorem add_months_is_month_arithmetic (d : arcdate_t) (months : Z) :
  let d' := add_months d months in
  month_index d' = month_index d + months - carry_slip 12 12 (month d - 1 + months) /\
  day d' <= day d /\
  hour d' = hour d /\ minute d' = minute d /\ second d' = second d /\
  weekday d' = weekday d /\ gmt_offset d' = gmt_offset d.
Proof.
  cbv zeta.
  destruct (add_months_is_month_arithmetic_fields d months) as (E & F).
  refine (conj E (conj _ F)).
  pose proof (add_months_day d months) as Ed. cbv zeta in Ed. lia.
Qed.

(** X9: a year addition is undone by the opposite addition unless it met
    the leap-day clamp: from 29 February into a common year the day
    becomes 28 and stays 28 on the way back. *)
Theorem add_years_undo (d : arcdate_t) (years : Z) :
  invariants d ->
  (~ (month d = 2 /\ day d = 29 /\ is_leap_year (year d + years) = false) ->
   add_years (add_years d years) (- years) = d) /\
  (month d = 2 -> day d = 29 -> is_leap_year (year d + years) = false ->
   add_years (add_years d years) (- years) = set_day d 28).
Proof.
  intros (Hm & Hday & _).
  destruct d as [y m dd h mi s w g]. unfold add_years; fields.
  split.
  - intros Hno.
    destruct (Z.eqb_spec m 2) as [-> | Hm2]; cbn [andb]; fields.
    + rewrite days_in_month_feb in Hday.
      destruct (Z.eqb_spec dd 29) as [-> | Hd29]; cbn [andb]; fields.
      * destruct (is_leap_year (y + years)) eqn:E; cbn [negb]; fields.
        -- replace (y + years + - years) with y by lia.
           cbn [Z.eqb Pos.eqb andb]. destruct (is_leap_year y); [reflexivity | lia].
        -- exfalso. apply Hno. repeat split.
      * destruct (Z.eqb_spec 2 2); [ | contradiction]. cbn [andb].
        destruct (Z.eqb_spec dd 29); [contradiction |]. cbn [andb].
        replace (y + years + - years) with y by lia. reflexivity.
    + destruct (Z.eqb_spec m 2); [contradiction |]. cbn [andb].
      replace (y + years + - years) with y by lia. reflexivity.
  - intros -> -> E. rewrite E. cbn [Z.eqb Pos.eqb andb negb]; fields.
    cbn [Z.eqb Pos.eqb andb]. unfold set_day; fields.
    replace (y + years + - years) with y by lia. reflexivity.
Qed.

Lemma add_years_undo_witness :
  invariants (mk_arcdate 2024 2 29 7 28 0 4 0) /\
  add_years (add_years (mk_arcdate 2024 2 29 7 28 0 4 0) 4) (-4)
  = mk_arcdate 2024 2 29 7 28 0 4 0 /\
  add_years (add_years (mk_arcdate 2024 2 29 7 28 0 4 0) 1) (-1)
  = mk_arcdate 2024 2 28 7 28 0 4 0.
Proof.
  assert (H : invariants (mk_arcdate 2024 2 29 7 28 0 4 0))
    by (repeat split; vm_compute; congruence).
  split; [exact H |].
  split.
  - apply (proj1 (add_years_undo _ 4 H)). intros (_ & _ & E). vm_compute in E. discriminate E.
  - apply (proj2 (add_years_undo _ 1 H)); reflexivity.
Defined.

(** X10: month additions compose on days that every month has: for a day
    of at most 28, adding [a] months and then [b] months is adding [a + b]
    months, as long as no month total met on the way is a negative exact
    multiple of 12. *)
Theorem add_months_composes (d : arcdate_t) (a b : Z) :
  invariants d -> day d <= 28 ->
  ~ negative_multiple 12 (month d - 1 + a) ->
  ~ negative_multiple 12 (month (add_months d a) - 1 + b) ->
  ~ negative_multiple 12 (month d - 1 + (a + b)) ->
  add_months (add_months d a) b = add_months d (a + b).
Proof.
  intros Hd H28 N1 N2 N3.
  assert (slip0 : forall t, ~ negative_multiple 12 t -> carry_slip 12 12 t = 0).
  { intros t Ht. unfold carry_slip, negative_multiple in *.
    destruct (Z.ltb_spec t 0), (Z.eqb_spec (t mod 12) 0); cbn [andb]; try reflexivity.
    exfalso. apply Ht. split; assumption. }
  pose proof (add_months_invariants d a Hd) as V1.
  pose proof (add_months_invariants _ b V1) as V2.
  pose proof (add_months_invariants d (a + b) Hd) as V3.
  destruct (add_months_is_month_arithmetic_fields d a) as (I1 & F1).
  destruct (add_months_is_month_arithmetic_fields (add_months d a) b) as (I2 & F2).
  destruct (add_months_is_month_arithmetic_fields d (a + b)) as (I3 & F3).
  pose proof (add_months_day d a) as D1.
  pose proof (add_months_day (add_months d a) b) as D2.
  pose proof (add_months_day d (a + b)) as D3.
  cbv zeta in D1, D2, D3.
  rewrite slip0 in I1, I2, I3 by assumption.
  revert V1 V2 V3 I1 F1 I2 F2 I3 F3 D1 D2 D3 N2.
  generalize (add_months d (a + b)). generalize (add_months (add_months d a) b).
  generalize (add_months d a). intros x1 x2 x3 V1 V2 V3 I1 F1 I2 F2 I3 F3 D1 D2 D3 _.
  destruct V1 as (M1 & _), V2 as (M2 & _), V3 as (M3 & _).
  pose proof (days_in_month_range _ (year x1) M1).
  pose proof (days_in_month_range _ (year x2) M2).
  pose proof (days_in_month_range _ (year x3) M3).
  unfold month_index in *.
  destruct F1 as (? & ? & ? & ? & ?), F2 as (? & ? & ? & ? & ?), F3 as (? & ? & ? & ? & ?).
  destruct x2, x3; fields. f_equal; lia.
Qed.

Lemma add_months_composes_witness :
  add_months (add_months wed_21_oct_2015 (-30)) 7 = add_months wed_21_oct_2015 (-30 + 7).
Proof.
  apply (add_months_composes wed_21_oct_2015 (-30) 7).
  - repeat split; vm_compute; congruence.
  - vm_compute. congruence.
  - intros [E1 E2]; vm_compute in E1, E2; first [discriminate E1 | discriminate E2].
  - intros [E1 E2]; vm_compute in E1, E2; first [discriminate E1 | discriminate E2].
  - intros [E1 E2]; vm_compute in E1, E2; first [discriminate E1 | discriminate E2].
Defined.

(** ** Conversions *)

Lemma set_gmt_offset_same d : set_gmt_offset d (gmt_offset d) = d.
Proof. destruct d; reflexivity. Qed.

(** X11: converting to the offset a timestamp already has changes
    nothing; conversions compose, and a conversion is undone by converting
    back, as long as no hour total met on the way is a negative exact
    multiple of 24. *)
Theorem conversions_compose (d : arcdate_t) (X Y : Z) :
  invariants d ->
  convert d (gmt_offset d) = d /\
  (~ negative_multiple 24 (hour d + (X - gmt_offset d)) ->
   ~ negative_multiple 24 (hour (convert d X) + (Y - X)) ->
   ~ negative_multiple 24 (hour d + (Y - gmt_offset d)) ->
   convert (convert d X) Y = convert d Y) /\
  (~ negative_multiple 24 (hour d + (X - gmt_offset d)) ->
   ~ negative_multiple 24 (hour (convert d X) + (gmt_offset d - X)) ->
   convert (convert d X) (gmt_offset d) = d).
Proof.
  intros Hd. pose proof Hd as (Hm & Hday & Hh & Hmi & Hw).
  assert (Hid : convert d (gmt_offset d) = d).
  { unfold convert. replace (gmt_offset d - gmt_offset d) with 0 by lia.
    rewrite add_hours_zero by assumption. apply set_gmt_offset_same. }
  refine (conj Hid (conj _ _)).
  - apply convert_convert, Hd.
  - intros N1 N2. rewrite convert_convert; [exact Hid | exact Hd | exact N1 | exact N2 |].
    unfold negative_multiple. lia.
Qed.

Lemma conversions_compose_witness :
  invariants wed_21_oct_2015 /\
  convert (convert wed_21_oct_2015 (-9)) 5 = convert wed_21_oct_2015 5 /\
  convert (convert wed_21_oct_2015 (-9)) 0 = wed_21_oct_2015.
Proof.
  assert (H : invariants wed_21_oct_2015) by (repeat split; vm_compute; congruence).
  split; [exact H |].
  destruct (conversions_compose wed_21_oct_2015 (-9) 5 H) as (_ & H1 & H2).
  split.
  - apply H1; intros [E1 E2]; vm_compute in E1, E2;
      first [discriminate E1 | discriminate E2].
  - apply H2; intros [E1 E2]; vm_compute in E1, E2;
      first [discriminate E1 | discriminate E2].
Defined.

(** ** Fields that [add_days] and [add_hours] do not read *)

Section Frame.
Context {S : Type} (cond : S -> bool) (body : S -> S) (u : S -> S).
Hypothesis cond_u : forall x, cond (u x) = cond x.
Hypothesis body_u : forall x, body (u x) = u (body x).

Lemma while_runs_frame k s s' :
  while_runs cond body k s s' -> while_runs cond body k (u s) (u s').
Proof.
  induction 1 as [s Hc | k s s' Hc Hrun IH].
  - apply while_exit. rewrite cond_u. exact Hc.
  - apply while_iter; [rewrite cond_u; exact Hc |]. rewrite body_u. exact IH.
Qed.
End Frame.

Lemma add_days_set_minute d v days :
  add_days (set_minute d v) days = set_minute (add_days d days) v.
Proof.
  unfold add_days.
  change (set_day (set_minute d v) (day (set_minute d v) + days))
    with (set_minute (set_day d (day d + days)) v).
  generalize (set_day d (day d + days)). intros d0.
  assert (C : carry_loop (set_minute d0 v) = set_minute (carry_loop d0) v).
  { destruct (carry_loop_runs d0) as [k Hk].
    destruct (carry_loop_runs (set_minute d0 v)) as [k' Hk'].
    apply (while_runs_frame _ _ (fun x => set_minute x v)) in Hk.
    - exact (proj2 (while_runs_deterministic _ _ _ _ _ _ _ Hk' Hk)).
    - intros x. reflexivity.
    - intros x. destruct x. unfold carry_body; fields. split_cmp; reflexivity. }
  rewrite C. generalize (carry_loop d0). intros d1.
  destruct (borrow_loop_runs d1) as [k Hk].
  destruct (borrow_loop_runs (set_minute d1 v)) as [k' Hk'].
  apply (while_runs_frame _ _ (fun x => set_minute x v)) in Hk.
  - exact (proj2 (while_runs_deterministic _ _ _ _ _ _ _ Hk' Hk)).
  - intros x. reflexivity.
  - intros x. destruct x. unfold borrow_body; fields. split_cmp; reflexivity.
Qed.

Lemma add_days_set_gmt_offset d v days :
  add_days (set_gmt_offset d v) days = set_gmt_offset (add_days d days) v.
Proof.
  unfold add_days.
  change (set_day (set_gmt_offset d v) (day (set_gmt_offset d v) + days))
    with (set_gmt_offset (set_day d (day d + days)) v).
  generalize (set_day d (day d + days)). intros d0.
  assert (C : carry_loop (set_gmt_offset d0 v) = set_gmt_offset (carry_loop d0) v).
  { destruct (carry_loop_runs d0) as [k Hk].
    destruct (carry_loop_runs (set_gmt_offset d0 v)) as [k' Hk'].
    apply (while_runs_frame _ _ (fun x => set_gmt_offset x v)) in Hk.
    - exact (proj2 (while_runs_deterministic _ _ _ _ _ _ _ Hk' Hk)).
    - intros x. reflexivity.
    - intros x. destruct x. unfold carry_body; fields. split_cmp; reflexivity. }
  rewrite C. generalize (carry_loop d0). intros d1.
  destruct (borrow_loop_runs d1) as [k Hk].
  destruct (borrow_loop_runs (set_gmt_offset d1 v)) as [k' Hk'].
  apply (while_runs_frame _ _ (fun x => set_gmt_offset x v)) in Hk.
  - exact (proj2 (while_runs_deterministic _ _ _ _ _ _ _ Hk' Hk)).
  - intros x. reflexivity.
  - intros x. destruct x. unfold borrow_body; fields. split_cmp; reflexivity.
Qed.

Lemma add_hours_set_minute d v hours :
  add_hours (set_minute d v) hours = set_minute (add_hours d hours) v.
Proof. unfold add_hours. rewrite <- add_days_set_minute. reflexivity. Qed.

Lemma add_hours_set_gmt_offset d v hours :
  add_hours (set_gmt_offset d v) hours = set_gmt_offset (add_hours d hours) v.
Proof. unfold add_hours. rewrite <- add_days_set_gmt_offset. reflexivity. Qed.

(** [add_hours] repairs the day and the hour of any record with a month in
    1..12 and a weekday in 0..6. *)
Lemma add_hours_normalises d hours :
  1 <= month d <= 12 -> 0 <= weekday d <= 6 ->
  let d' := add_hours d hours in
  1 <= month d' <= 12 /\ 1 <= day d' <= days_in_month (month d') (year d') /\
  0 <= hour d' <= 23 /\ 0 <= weekday d' <= 6 /\
  minute d' = minute d /\ second d' = second d /\ gmt_offset d' = gmt_offset d.
Proof.
  intros Hm Hw. cbv zeta. unfold add_hours.
  set (d0 := set_hour d (Z.rem (Z.rem (hour d + hours) 24 + 24) 24)).
  generalize (days_change (hour d + hours)). intros c.
  assert (E : d0 = set_minute (set_minute d0 0) (minute d)) by (destruct d; reflexivity).
  rewrite E, add_days_set_minute.
  assert (Hr : ranges_except_day (set_minute d0 0)).
  { unfold d0, ranges_except_day; fields.
    repeat split; try lia; Z.to_euclidean_division_equations; lia. }
  pose proof (add_days_invariants (set_minute d0 0) c Hr) as (Vm & Vd & Vh & _ & Vw).
  destruct (add_days_frame (set_minute d0 0) c) as (_ & _ & Es & Eg).
  revert Vm Vd Vh Vw Es Eg. generalize (add_days (set_minute d0 0) c).
  intros x Vm Vd Vh Vw Es Eg. destruct x; fields. repeat split; (assumption || lia).
Qed.

(** ** What the parser accepts *)

Lemma generate_date_text env wd dd mon yyyy hh mm ss tail offset :
  malloc_ok env = true ->
  0 <= wd <= 6 -> 1 <= mon <= 12 -> 0 <= yyyy <= 9999 -> 0 <= dd <= 99 ->
  0 <= hh <= 99 -> 0 <= mm <= 99 -> 0 <= ss <= 99 ->
  generate_date env (Some (http_date_text wd dd mon yyyy hh mm ss ++ tail)) offset
  = Some (add_hours (mk_arcdate yyyy mon dd hh mm ss wd offset) offset).
Proof.
  intros Hok Hwd Hmon Hy Hdd Hhh Hmm Hss.
  unfold generate_date, fill_date. rewrite Hok. cbn [negb].
  rewrite sscanf_http_date_text by assumption.
  cbn [l_weekday l_day l_month l_year l_hour l_minute l_second].
  rewrite (proj2 (scan_s_weekday_name wd EmptyString Hwd)).
  rewrite (proj2 (scan_s_month_name mon EmptyString Hmon)).
  reflexivity.
Qed.

(** X12: whatever the text, [generate_date] returns a timestamp with the
    month in 1..12, the weekday in 0..6, the hour carried into 0..23 and the
    day carried into its month; the minute and the second are the numbers
    read (or the indeterminate values left in the locals), unchecked. *)
Theorem generate_date_normalises (env : environment) (httpDate : string)
    (offset : Z) :
  malloc_ok env = true ->
  exists d,
    generate_date env (Some httpDate) offset = Some d /\
    1 <= month d <= 12 /\ 1 <= day d <= days_in_month (month d) (year d) /\
    0 <= hour d <= 23 /\ 0 <= weekday d <= 6 /\
    minute d = l_minute (sscanf_http_date httpDate (indeterminate env)) /\
    second d = l_second (sscanf_http_date httpDate (indeterminate env)) /\
    gmt_offset d = offset.
Proof.
  intros Hok. unfold generate_date. rewrite Hok. cbn [negb].
  eexists. split; [reflexivity |].
  unfold fill_date.
  generalize (sscanf_http_date httpDate (indeterminate env)). intros v.
  pose proof (add_hours_normalises
                (mk_arcdate (l_year v) (parse_month (l_month v)) (l_day v) (l_hour v)
                            (l_minute v) (l_second v) (parse_weekday (l_weekday v))
                            offset)
                offset (parse_month_range _) (parse_weekday_range _)) as H.
  cbv zeta in H. exact H.
Qed.

Lemma generate_date_normalises_witness :
  exists d,
    generate_date sample_env (Some "Xyz, 99 Oct 2015 31:75:00 GMT") 0 = Some d /\
    1 <= month d <= 12 /\ 1 <= day d <= days_in_month (month d) (year d) /\
    0 <= hour d <= 23 /\ 0 <= weekday d <= 6 /\
    minute d = 75.
Proof.
  destruct (generate_date_normalises sample_env "Xyz, 99 Oct 2015 31:75:00 GMT" 0 eq_refl)
    as (d & E & Hm & Hd & Hh & Hw & Hmi & _).
  exists d. repeat split; try assumption; try apply Hm; try apply Hd; try apply Hh; try apply Hw.
Defined.

(** X13: the parser stops after the seconds: whatever follows a
    well-formed text, the zone name included, does not change the
    timestamp. *)
Theorem generate_date_ignores_trailing_text (env : environment) (s tail : string)
    (offset : Z) :
  malloc_ok env = true -> well_formed_http_date s ->
  generate_date env (Some (s ++ tail)) offset = generate_date env (Some s) offset.
Proof.
  intros Hok (wd & dd & mon & yyyy & hh & mm & ss & Hwd & Hmon & Hy & Hdd & Hhh & Hmm & Hss & ->).
  pose proof (days_in_month_range mon yyyy Hmon) as Hdim.
  rewrite <- (append_Empty_r (http_date_text wd dd mon yyyy hh mm ss)) at 2.
  rewrite !generate_date_text by (assumption || lia). reflexivity.
Qed.

Lemma generate_date_ignores_trailing_text_witness :
  well_formed_http_date sample_text /\
  generate_date sample_env (Some (sample_text ++ "+7 and more")) 3
  = generate_date sample_env (Some sample_text) 3.
Proof.
  assert (H : well_formed_http_date sample_text).
  { exists 3, 21, 10, 2015, 7, 28, 0.
    repeat split; try (vm_compute; congruence). }
  split; [exact H |].
  exact (generate_date_ignores_trailing_text sample_env sample_text "+7 and more" 3
           eq_refl H).
Defined.

(** X14: parsing a well-formed text with an offset is parsing it as GMT
    and converting the result to that offset. *)
Theorem generate_date_is_parse_then_convert (env : environment) (s : string)
    (offset : Z) :
  malloc_ok env = true -> well_formed_http_date s ->
  generate_date env (Some s) offset
  = option_map (fun date => convert date offset) (generate_date env (Some s) 0).
Proof.
  intros Hok (wd & dd & mon & yyyy & hh & mm & ss & Hwd & Hmon & Hy & Hdd & Hhh & Hmm & Hss & ->).
  pose proof (days_in_month_range mon yyyy Hmon) as Hdim.
  rewrite <- (append_Empty_r (http_date_text wd dd mon yyyy hh mm ss)).
  rewrite !generate_date_text by (assumption || lia).
  cbn [option_map]. f_equal.
  rewrite (add_hours_zero (mk_arcdate yyyy mon dd hh mm ss wd 0)) by (fields; lia).
  unfold convert; fields. replace (offset - 0) with offset by lia.
  rewrite <- add_hours_set_gmt_offset. reflexivity.
Qed.

Lemma generate_date_is_parse_then_convert_witness :
  well_formed_http_date sample_text /\
  generate_date sample_env (Some sample_text) (-8)
  = option_map (fun date => convert date (-8)) (generate_date sample_env (Some sample_text) 0).
Proof.
  assert (H : well_formed_http_date sample_text).
  { exists 3, 21, 10, 2015, 7, 28, 0.
    repeat split; try (vm_compute; congruence). }
  split; [exact H |].
  exact (generate_date_is_parse_then_convert sample_env sample_text (-8) eq_refl H).
Defined.

(** X15: without a text, [generate_date] returns the clock reading
    converted to the offset asked for; with offset 0 that is the reading
    itself (year counted from 1900, month counted from 0). *)
Theorem generate_date_reads_the_clock (env : environment) (offset : Z) :
  malloc_ok env = true -> invariants (clock_date (gmtime_now env) 0) ->
  generate_date env None 0 = Some (clock_date (gmtime_now env) 0) /\
  generate_date env None offset
  = Some (convert (clock_date (gmtime_now env) 0) offset).
Proof.
  intros Hok (Hm & Hd & Hh & _).
  unfold generate_date, fill_date. rewrite Hok. cbn [negb].
  change (mk_arcdate (tm_year (gmtime_now env) + 1900) (tm_mon (gmtime_now env) + 1)
            (tm_mday (gmtime_now env)) (tm_hour (gmtime_now env))
            (tm_min (gmtime_now env)) (tm_sec (gmtime_now env))
            (tm_wday (gmtime_now env)))
    with (clock_date (gmtime_now env)).
  split; f_equal.
  - apply add_hours_zero; assumption.
  - unfold convert. change (gmt_offset (clock_date (gmtime_now env) 0)) with 0.
    replace (offset - 0) with offset by lia.
    rewrite <- add_hours_set_gmt_offset. reflexivity.
Qed.

Lemma generate_date_reads_the_clock_witness :
  invariants (clock_date (gmtime_now sample_env) 0) /\
  generate_date sample_env None 0 = Some (mk_arcdate 2025 4 27 18 16 11 0 0).
Proof.
  assert (H : invariants (clock_date (gmtime_now sample_env) 0))
    by (repeat split; vm_compute; congruence).
  split; [exact H |].
  exact (proj1 (generate_date_reads_the_clock sample_env 0 eq_refl H)).
Defined.

(** ** Names *)

(** X16: the name tables and the name parsers are inverse on the tables:
    the name printed for a weekday or month is parsed back to its number;
    and whatever the string, the parsed month is in 1..12 and the parsed
    weekday in 0..6, so the formatter never reads outside a table for a
    parsed timestamp. *)
Theorem names_parse_back (w m : Z) (str : string) :
  (0 <= w <= 6 -> parse_weekday (table_get EmptyString weekday_names w) = w) /\
  (1 <= m <= 12 -> parse_month (table_get EmptyString month_names (m - 1)) = m) /\
  1 <= parse_month str <= 12 /\ 0 <= parse_weekday str <= 6.
Proof.
  refine (conj _ (conj _ (conj _ _))).
  - intros Hw. apply (scan_s_weekday_name w EmptyString Hw).
  - intros Hm. apply (scan_s_month_name m EmptyString Hm).
  - apply parse_month_range.
  - apply parse_weekday_range.
Qed.

Lemma names_parse_back_witness :
  parse_weekday (table_get EmptyString weekday_names 6) = 6 /\
  parse_month (table_get EmptyString month_names (12 - 1)) = 12.
Proof.
  destruct (names_parse_back 6 12 EmptyString) as (Hw & Hm & _).
  split; [apply Hw | apply Hm]; lia.
Defined.

(** ** Formatting *)

Lemma to_date_string_layout env d :
  malloc_ok env = true -> invariants d -> 0 <= year d <= 9999 -> 0 <= second d <= 59 ->
  to_date_string env d
  = Some (http_date_text (weekday d) (day d) (month d) (year d) (hour d) (minute d)
            (second d)
          ++ String.substring 0 70 (fmt_d true 0 (gmt_offset d))).
Proof.
  intros Hok (Hmon & Hdd & Hhh & Hmm & Hwd) Hy Hss.
  pose proof (days_in_month_range _ (year d) Hmon) as Hdim.
  destruct d as [yyyy mon dd hh mm ss wd g]; fields.
  unfold to_date_string; fields. rewrite Hok. cbn [negb]. f_equal.
  rewrite !fmt_d_two_digits, fmt_d_four_digits by lia.
  generalize (fmt_d true 0 g). intros tail.
  assert (H : wd = 0 \/ wd = 1 \/ wd = 2 \/ wd = 3 \/ wd = 4 \/ wd = 5 \/ wd = 6) by lia.
  assert (H' : mon = 1 \/ mon = 2 \/ mon = 3 \/ mon = 4 \/ mon = 5 \/ mon = 6 \/ mon = 7
               \/ mon = 8 \/ mon = 9 \/ mon = 10 \/ mon = 11 \/ mon = 12) by lia.
  destruct H as [H | [H | [H | [H | [H | [H | H]]]]]]; rewrite H;
    destruct H' as [H' | [H' | [H' | [H' | [H' | [H' | [H' | [H' | [H' | [H' | [H' | H']]]]]]]]]]];
    rewrite H'; reflexivity.
Qed.

(** X17: a formatted timestamp is parsed back field for field: for a
    timestamp that satisfies the invariants, with a year in 0..9999 and a
    second in 0..59, [generate_date] with offset 0 applied to the text of
    [to_date_string] returns the same fields, with offset 0 in place of the
    offset printed. *)
Theorem parse_of_format (env : environment) (d : arcdate_t) :
  malloc_ok env = true -> invariants d -> 0 <= year d <= 9999 -> 0 <= second d <= 59 ->
  exists text,
    to_date_string env d = Some text /\
    generate_date env (Some text) 0 = Some (set_gmt_offset d 0).
Proof.
  intros Hok Hd Hy Hss. eexists. split; [apply to_date_string_layout; assumption |].
  destruct Hd as (Hmon & Hdd & Hhh & Hmm & Hwd).
  pose proof (days_in_month_range _ (year d) Hmon) as Hdim.
  rewrite generate_date_text by (assumption || lia). f_equal.
  rewrite add_hours_zero by (fields; assumption).
  destruct d; reflexivity.
Qed.

Lemma parse_of_format_witness :
  exists text,
    to_date_string sample_env (add_days midnight_gmt_plus_12 45) = Some text /\
    generate_date sample_env (Some text) 0
    = Some (set_gmt_offset (add_days midnight_gmt_plus_12 45) 0).
Proof.
  apply (parse_of_format sample_env (add_days midnight_gmt_plus_12 45) eq_refl).
  - repeat split; vm_compute; congruence.
  - split; vm_compute; congruence.
  - split; vm_compute; congruence.
Defined.









(** ** Allocation *)



(** ** The test program *)

(** X20: whenever the allocations succeed, [main] of test.c prints the
    lines recorded in its header comment; only the text of the line with
    the current time depends on the clock. *)
Theorem main_prints_the_recorded_lines (env : environment) :
  malloc_ok env = true ->
  exists now now_text,
    generate_date env None 0 = Some now /\
    to_date_string env now = Some now_text /\
    main env
    = Some ["Testing HTTP Datetime Parser Library...";
            "Parsed and shifted date: Wed, 21 Oct 2015 10:28:00 GMT+3";
            "Converted to GMT+5: Wed, 21 Oct 2015 12:28:00 GMT+5";
            "After adding 2 days: Wed, 23 Oct 2015 12:28:00 GMT+5";
            "After subtracting 90 minutes: Wed, 23 Oct 2015 10:58:00 GMT+5";
            "Current UTC time: " ++ now_text;
            "All tests completed."]%string.
Proof.
  intros Hok.
  assert (G : generate_date env (Some "Wed, 21 Oct 2015 07:28:00 GMT"%string) 3
              = Some (mk_arcdate 2015 10 21 10 28 0 3 3)).
  { unfold generate_date. rewrite Hok. cbn [negb]. f_equal. }
  assert (T : forall d, to_date_string env d = Some (snprintf 100 (date_text d))).
  { intros d. unfold to_date_string. rewrite Hok. reflexivity. }
  assert (N : exists now, generate_date env None 0 = Some now).
  { unfold generate_date. rewrite Hok. eexists. reflexivity. }
  destruct N as [now N].
  exists now, (snprintf 100 (date_text now)).
  split; [exact N |]. split; [apply T |].
  unfold main. rewrite G, N, !T. reflexivity.
Qed.

Lemma main_prints_the_recorded_lines_witness :
  exists now_text,
    main sample_env
    = Some ["Testing HTTP Datetime Parser Library...";
            "Parsed and shifted date: Wed, 21 Oct 2015 10:28:00 GMT+3";
            "Converted to GMT+5: Wed, 21 Oct 2015 12:28:00 GMT+5";
            "After adding 2 days: Wed, 23 Oct 2015 12:28:00 GMT+5";
            "After subtracting 90 minutes: Wed, 23 Oct 2015 10:58:00 GMT+5";
            "Current UTC time: " ++ now_text;
            "All tests completed."]%string.
Proof.
  destruct (main_prints_the_recorded_lines sample_env eq_refl) as (now & now_text & _ & _ & E).
  exists now_text. exact E.
Defined.
